(** * The vectorized backtesting engine of [backtesting/engine.py]

    A shallow embedding of [BacktestEngine.run_backtest] and the properties
    of its translator (target, lagged position, net returns), equity and
    drawdown curves, win rate, trade ledger and error behaviour.

    Numbers.  A Python/NumPy float is modelled by [float64]: an exact
    rational ([Qc]) or one of the IEEE specials NaN, +inf, -inf, with the
    IEEE rules for the specials (0 * inf = NaN, x / 0 = +-inf, 0 / 0 = NaN,
    every ordered comparison with NaN false, NaN != x true).  Rounding,
    overflow (the [OverflowError] of a float power included) and the sign
    of zero are not modelled: finite arithmetic is exact.  The input series
    of [StockData] are finite numbers.

    Dates are the 'YYYY-MM-DD' strings the data layer produces;
    [pd.to_datetime] followed by [strftime('%Y-%m-%d')] is the identity on
    them. *)

From Stdlib Require Import QArith Qcanon ZArith Lia.
From stdpp Require Import base list numbers strings.

Local Open Scope Qc_scope.

(** ** Floating-point values *)

Inductive float64 : Type :=
  | NaN
  | PInf
  | NInf
  | Fin (q : Qc).

Definition Qcltb (x y : Qc) : bool :=
  match x ?= y with Lt => true | _ => false end.

Definition Qceqb (x y : Qc) : bool :=
  match x ?= y with Eq => true | _ => false end.

Definition is_nan (x : float64) : bool :=
  match x with NaN => true | _ => false end.

Definition is_fin (x : float64) : bool :=
  match x with Fin _ => true | _ => false end.

Definition fneg (x : float64) : float64 :=
  match x with
  | NaN => NaN
  | PInf => NInf
  | NInf => PInf
  | Fin q => Fin (- q)
  end.

Definition fadd (x y : float64) : float64 :=
  match x, y with
  | NaN, _ | _, NaN => NaN
  | PInf, NInf | NInf, PInf => NaN
  | PInf, _ | _, PInf => PInf
  | NInf, _ | _, NInf => NInf
  | Fin a, Fin b => Fin (a + b)
  end.

Definition fsub (x y : float64) : float64 := fadd x (fneg y).

(** The infinity with the sign of [q] times the sign carried by [pos]; NaN
    when [q] is zero. *)
Definition inf_signed (pos : bool) (q : Qc) : float64 :=
  match q ?= 0 with
  | Eq => NaN
  | Gt => if pos then PInf else NInf
  | Lt => if pos then NInf else PInf
  end.

Definition fmul (x y : float64) : float64 :=
  match x, y with
  | NaN, _ | _, NaN => NaN
  | PInf, PInf | NInf, NInf => PInf
  | PInf, NInf | NInf, PInf => NInf
  | PInf, Fin q | Fin q, PInf => inf_signed true q
  | NInf, Fin q | Fin q, NInf => inf_signed false q
  | Fin a, Fin b => Fin (a * b)
  end.

Definition fdiv (x y : float64) : float64 :=
  match x, y with
  | NaN, _ | _, NaN => NaN
  | Fin a, Fin b => if Qceqb b 0 then inf_signed true a else Fin (a / b)
  | Fin _, (PInf | NInf) => Fin 0
  | (PInf | NInf), (PInf | NInf) => NaN
  | PInf, Fin b => if Qcltb b 0 then NInf else PInf
  | NInf, Fin b => if Qcltb b 0 then PInf else NInf
  end.

Definition fabs (x : float64) : float64 :=
  match x with
  | NaN => NaN
  | PInf | NInf => PInf
  | Fin q => Fin (if Qcltb q 0 then - q else q)
  end.

(** [x < y]; false as soon as one side is NaN. *)
Definition fltb (x y : float64) : bool :=
  match x, y with
  | NaN, _ | _, NaN => false
  | _, NInf => false
  | PInf, _ => false
  | NInf, _ => true
  | _, PInf => true
  | Fin a, Fin b => Qcltb a b
  end.

Definition fgtb (x y : float64) : bool := fltb y x.

(** [x == y] and [x != y] of IEEE: NaN differs from everything. *)
Definition feqb (x y : float64) : bool :=
  match x, y with
  | PInf, PInf | NInf, NInf => true
  | Fin a, Fin b => Qceqb a b
  | _, _ => false
  end.

Definition fneb (x y : float64) : bool := negb (feqb x y).

Definition fleb (x y : float64) : bool := fltb x y || feqb x y.

Definition of_Z (z : Z) : float64 := Fin (Qc_of_Z z).

Definition f0 : float64 := Fin 0.
Definition f1 : float64 := Fin 1.
Definition f100 : float64 := of_Z 100.

(** ** Series operations of pandas and NumPy used by the engine *)

(** [Series.shift(1)]: every value moves one row down, the first row is
    missing, the length is kept. *)
Definition shift1 (l : list float64) : list float64 :=
  take (length l) (NaN :: l).

(** [Series.fillna(v)]. *)
Definition fillna (v : float64) (l : list float64) : list float64 :=
  (λ x, if is_nan x then v else x) <$> l.

(** [Series.pct_change()]: [data / data.shift(1) - 1]. *)
Definition pct_change (l : list float64) : list float64 :=
  zip_with (λ x p, fsub (fdiv x p) f1) l (shift1 l).

(** [Series.diff()]: [data - data.shift(1)]. *)
Definition diff (l : list float64) : list float64 :=
  zip_with fsub l (shift1 l).

(** [Series.cumprod()] (skipna): missing entries stay missing and are
    passed over by the running product. *)
Fixpoint cumprod_from (acc : float64) (l : list float64) : list float64 :=
  match l with
  | [] => []
  | x :: l' =>
      if is_nan x then NaN :: cumprod_from acc l'
      else let acc' := fmul acc x in acc' :: cumprod_from acc' l'
  end.

Definition cumprod (l : list float64) : list float64 := cumprod_from f1 l.

Definition fmax (x y : float64) : float64 := if fltb x y then y else x.
Definition fmin (x y : float64) : float64 := if fltb y x then y else x.

(** [Series.expanding(min_periods=1).max()]: the running maximum of the
    values seen so far, missing values passed over; missing while nothing
    has been seen. *)
Fixpoint expanding_max_from (acc : float64) (l : list float64)
  : list float64 :=
  match l with
  | [] => []
  | x :: l' =>
      let acc' := if is_nan x then acc
                  else if is_nan acc then x else fmax acc x in
      acc' :: expanding_max_from acc' l'
  end.

Definition expanding_max (l : list float64) : list float64 :=
  expanding_max_from NaN l.

(** [Series.min()] (skipna): NaN on an empty or all-missing series. *)
Definition series_min (l : list float64) : float64 :=
  foldl (λ acc x, if is_nan x then acc
                  else if is_nan acc then x else fmin acc x) NaN l.

(** [len(df[mask])]. *)
Definition count_where (p : float64 → bool) (l : list float64) : nat :=
  length (filter (λ x, p x = true) l).

(** ** Data contracts ([contracts.schema]) *)

(** Modelled from the spec: the classes of [contracts/schema.py] are not
    among the sources; [StockData] has the fields the engine reads, the
    input contract of the specification (dates, close, MACD and signal
    series, and the volumes that are only passed on). *)
Record StockData : Type := {
  dates : list string;
  closes : list Qc;
  macd : list Qc;
  macd_signal : list Qc;
  volumes : list Z
}.

(** Modelled from the spec: the class is declared in the missing
    [contracts/schema.py]; the fields are the keyword arguments the engine
    passes to its constructor. *)
Module StrategyConfig.
Record t : Type := {
  strategy_name : string;
  initial_capital : float64;
  commission : float64;
  trade_on_close : bool;
  position_type : string
}.
End StrategyConfig.

(** Modelled from the spec: the class is declared in the missing
    [contracts/schema.py]; the fields are the keyword arguments the engine
    passes to its constructor. *)
Module TradeRecord.
Record t : Type := {
  entry_date : string;
  exit_date : string;
  entry_price : float64;
  exit_price : float64;
  profit_loss : float64;
  profit_loss_pct : float64;
  duration_days : Z;
  trade_type : string
}.
End TradeRecord.

(** Modelled from the spec: the class is declared in the missing
    [contracts/schema.py]; the fields are keyword arguments the engine
    passes to its constructor.  The statistics that need a square root, a
    real power or a calendar (volatility, Sharpe and information ratios,
    CAGR, alpha, beta, confidence ratio, average trade return, monthly
    returns) are left out: no property below reads them.  What the power
    of the annualised return can raise is kept, see [float_of_power]. *)
Module BacktestMetrics.
Record t : Type := {
  config : StrategyConfig.t;
  initial_capital : float64;
  final_equity : float64;
  total_trades : nat;
  win_rate : float64;
  max_drawdown : float64;
  total_return : float64;
  market_total_return : float64;
  market_max_drawdown : float64;
  entry_rule : string;
  exit_rule : string;
  position_strategy : string;
  equity_curve : list float64;
  market_equity : list float64;
  drawdown_curve : list float64;
  returns : list float64;
  dates : list string;
  volumes : list Z;
  trades : list TradeRecord.t;
  prices : list Qc;
  buy_signals : list nat;
  sell_signals : list nat;
  data_points : nat;
  date_range : string
}.
End BacktestMetrics.

(** ** Exceptions *)

(** The exceptions of interest.  The first three are built-in Python
    exceptions, raised by the libraries and built-ins the engine calls; the
    engine raises nothing itself.  The last two are the dedicated error
    kinds the specification names; no code path raises them. *)
Inductive exn : Type :=
  | ValueError   (* DataFrame construction: column and index lengths differ *)
  | IndexError   (* indexing a list or an index out of range *)
  | TypeError    (* float() of a complex number *)
  | InvalidInputError
  | InsufficientDataError.

Inductive result (A : Type) : Type :=
  | Ok (a : A)
  | Raise (e : exn).
Arguments Ok {A} a.
Arguments Raise {A} e.

Global Instance result_ret : MRet result := @Ok.
Global Instance result_bind : MBind result := λ A B f m,
  match m with Ok a => f a | Raise e => Raise e end.

(** [l[i]] / [series.iloc[i]] for [0 <= i]. *)
Definition iloc {A} (l : list A) (i : nat) : result A :=
  match l !! i with Some x => Ok x | None => Raise IndexError end.

(** [l[-1]] / [series.iloc[-1]]. *)
Definition iloc_last {A} (l : list A) : result A :=
  match last l with Some x => Ok x | None => Raise IndexError end.

(** Monadic left fold: a [for] loop whose body can raise. *)
Fixpoint for_each {S I} (body : S → I → result S) (s : S) (l : list I)
  : result S :=
  match l with
  | [] => Ok s
  | i :: l' => s' ← body s i; for_each body s' l'
  end.

(** ** The engine ([BacktestEngine.run_backtest]) *)

Module BacktestEngine.

(** Strategy configuration: the two local constants of [run_backtest]. *)
Definition initial_capital : float64 := of_Z 1000000.
Definition commission : float64 := Fin (Q2Qc (2 # 1000)).

Definition config : StrategyConfig.t := {|
  StrategyConfig.strategy_name := "MLStrategy";
  StrategyConfig.initial_capital := initial_capital;
  StrategyConfig.commission := commission;
  StrategyConfig.trade_on_close := true;
  StrategyConfig.position_type := "Long-only"
|}.

(** The table [df] as it is built from the input: three columns over the
    date index. *)
Record frame : Type := {
  index : list string;
  Close : list float64;
  MACD : list float64;
  Signal : list float64
}.

(** [pd.DataFrame({...}, index=pd.to_datetime(data.dates))]: every column
    must have the length of the index, or the constructor raises
    [ValueError]. *)
Definition DataFrame (data : StockData) : result frame :=
  let n := length (dates data) in
  if bool_decide (length (closes data) = n)
     && bool_decide (length (macd data) = n)
     && bool_decide (length (macd_signal data) = n)
  then Ok {| index := dates data;
             Close := Fin <$> closes data;
             MACD := Fin <$> macd data;
             Signal := Fin <$> macd_signal data |}
  else Raise ValueError.

Definition len (df : frame) : nat := length (index df).

(** [np.where(df['MACD'] > df['Signal'], 1, 0)]. *)
Definition Target (df : frame) : list Z :=
  zip_with (λ m s, if fgtb m s then 1%Z else 0%Z) (MACD df) (Signal df).

(** [df['Target'].shift(1).fillna(0)]. *)
Definition Position (df : frame) : list float64 :=
  fillna f0 (shift1 (of_Z <$> Target df)).

(** [df['Close'].pct_change()]. *)
Definition Returns (df : frame) : list float64 := pct_change (Close df).

(** [df['Position'] * df['Returns']], the column before commission. *)
Definition Gross_Strategy_Returns (df : frame) : list float64 :=
  zip_with fmul (Position df) (Returns df).

(** [df['Position'].diff().abs()]. *)
Definition Position_Change (df : frame) : list float64 :=
  fabs <$> diff (Position df).

(** [df['Position_Change'] * commission]. *)
Definition Commission_Cost (df : frame) : list float64 :=
  (λ x, fmul x commission) <$> Position_Change df.

(** [df['Strategy_Returns']] after the commission is applied. *)
Definition Strategy_Returns (df : frame) : list float64 :=
  zip_with fsub (Gross_Strategy_Returns df) (Commission_Cost df).

(** [(1 + series.fillna(0)).cumprod()]. *)
Definition cumulative (series : list float64) : list float64 :=
  cumprod (fadd f1 <$> fillna f0 series).

Definition cumulative_returns (df : frame) : list float64 :=
  cumulative (Strategy_Returns df).

(** [initial_capital * cumulative]. *)
Definition equity_of (cum : list float64) : list float64 :=
  fmul initial_capital <$> cum.

Definition market_returns (df : frame) : list float64 :=
  fillna f0 (Returns df).

Definition market_cumulative (df : frame) : list float64 :=
  cumprod (fadd f1 <$> market_returns df).

(** [(equity / equity.expanding(min_periods=1).max() - 1) * 100]. *)
Definition drawdown_of (equity : list float64) : list float64 :=
  zip_with (λ e p, fmul (fsub (fdiv e p) f1) f100)
           equity (expanding_max equity).

(** [(winning / total * 100) if total > 0 else 0] on the two row counts. *)
Definition win_rate_of (series : list float64) : float64 :=
  let winning_trades := count_where (λ x, fgtb x f0) series in
  let total_active_trades := count_where (λ x, fneb x f0) series in
  if bool_decide (0 < total_active_trades)%nat
  then fmul (fdiv (of_Z (Z.of_nat winning_trades))
                  (of_Z (Z.of_nat total_active_trades))) f100
  else f0.

(** *** Trade history *)

Record loop_state : Type := {
  position_open : bool;
  entry_idx : nat;
  entry_price : float64;
  trades : list TradeRecord.t;
  buy_signals : list nat;
  sell_signals : list nat
}.

Definition loop_init : loop_state := {|
  position_open := false; entry_idx := 0; entry_price := f0;
  trades := []; buy_signals := []; sell_signals := []
|}.

(** The [TradeRecord] both closing sites build: an exit at row [exit_idx]
    of the position entered at [entry_idx] for [entry_price]. *)
Definition close_trade (df : frame) (entry_idx : nat) (entry_price : float64)
    (exit_idx : nat) (exit_price : float64) : result TradeRecord.t :=
  let profit_loss :=
    fsub (fsub exit_price entry_price)
         (fmul (fmul entry_price commission) (of_Z 2)) in
  let profit_loss_pct := fmul (fdiv profit_loss entry_price) f100 in
  let duration := (Z.of_nat exit_idx - Z.of_nat entry_idx)%Z in
  entry_date ← iloc (index df) entry_idx;
  exit_date ← iloc (index df) exit_idx;
  Ok {| TradeRecord.entry_date := entry_date;
        TradeRecord.exit_date := exit_date;
        TradeRecord.entry_price := entry_price;
        TradeRecord.exit_price := exit_price;
        TradeRecord.profit_loss := profit_loss;
        TradeRecord.profit_loss_pct := profit_loss_pct;
        TradeRecord.duration_days := duration;
        TradeRecord.trade_type := "LONG" |}.

(** The body of [for idx in range(len(df))]. *)
Definition loop_body (df : frame) (s : loop_state) (idx : nat)
  : result loop_state :=
  current_signal ← iloc (Target df) idx;
  if bool_decide (current_signal = 1%Z) && negb (position_open s) then
    price ← iloc (Close df) idx;
    Ok {| position_open := true; entry_idx := idx; entry_price := price;
          trades := trades s;
          buy_signals := buy_signals s ++ [idx];
          sell_signals := sell_signals s |}
  else if bool_decide (current_signal = 0%Z) && position_open s then
    exit_price ← iloc (Close df) idx;
    trade ← close_trade df (entry_idx s) (entry_price s) idx exit_price;
    Ok {| position_open := false; entry_idx := entry_idx s;
          entry_price := entry_price s;
          trades := trades s ++ [trade];
          buy_signals := buy_signals s;
          sell_signals := sell_signals s ++ [idx] |}
  else Ok s.

(** [if position_open: ...] after the loop: the position is closed on the
    last row. *)
Definition close_open_position (df : frame) (s : loop_state)
  : result loop_state :=
  if position_open s then
    exit_price ← iloc_last (Close df);
    trade ← close_trade df (entry_idx s) (entry_price s)
                        (len df - 1)%nat exit_price;
    Ok {| position_open := position_open s; entry_idx := entry_idx s;
          entry_price := entry_price s;
          trades := trades s ++ [trade];
          buy_signals := buy_signals s;
          sell_signals := sell_signals s ++ [(len df - 1)%nat] |}
  else Ok s.

Definition trade_history (df : frame) : result loop_state :=
  s ← for_each (loop_body df) loop_init (seq 0 (len df));
  close_open_position df s.

(** *** [run_backtest] *)

(** The annualised returns are Python float powers
    [ratio ** (1 / years)] with [years = days / 252].  For a negative
    number raised to a power that is not an integer Python answers with a
    complex number, and the [float(...)] conversions of the report then
    raise [TypeError].  The exponent [1 / (days / 252)] is an integer
    exactly when [days] divides 252.  [real_power] tells whether the power
    is a real number; its value is not modelled. *)
Definition real_power (ratio : float64) (days : nat) : bool :=
  match ratio with
  | Fin q => negb (Qcltb q 0) || (252 mod days =? 0)%nat
  | _ => true
  end.

(** [float(ratio ** (1 / years))], for what it raises. *)
Definition float_of_power (ratio : float64) (days : nat) : result unit :=
  if real_power ratio days then Ok () else Raise TypeError.

Definition run_backtest (data : StockData) : result BacktestMetrics.t :=
  df ← DataFrame data;
  let equity_curve := equity_of (cumulative_returns df) in
  final_equity ← iloc_last equity_curve;
  let market_equity := equity_of (market_cumulative df) in
  let total_return :=
    fmul (fsub (fdiv final_equity initial_capital) f1) f100 in
  let win_rate := win_rate_of (Strategy_Returns df) in
  let drawdown := drawdown_of equity_curve in
  let max_drawdown := series_min drawdown in
  market_final ← iloc_last market_equity;
  let market_total_return :=
    fmul (fsub (fdiv market_final initial_capital) f1) f100 in
  let market_max_drawdown := series_min (drawdown_of market_equity) in
  let returns_list := fillna f0 (Strategy_Returns df) in
  s ← trade_history df;
  first_date ← iloc (index df) 0;
  last_date ← iloc_last (index df);
  _ ← float_of_power (fdiv final_equity initial_capital) (len df);
  _ ← float_of_power (fdiv market_final initial_capital) (len df);
  Ok {| BacktestMetrics.config := config;
        BacktestMetrics.initial_capital := initial_capital;
        BacktestMetrics.final_equity := final_equity;
        BacktestMetrics.total_trades := length (trades s);
        BacktestMetrics.win_rate := win_rate;
        BacktestMetrics.max_drawdown := max_drawdown;
        BacktestMetrics.total_return := total_return;
        BacktestMetrics.market_total_return := market_total_return;
        BacktestMetrics.market_max_drawdown := market_max_drawdown;
        BacktestMetrics.entry_rule := "Buy when Target = 1 (MACD > Signal)";
        BacktestMetrics.exit_rule :=
          "Close position when Target = 0 (MACD < Signal)";
        BacktestMetrics.position_strategy := "No short selling implemented";
        BacktestMetrics.equity_curve := equity_curve;
        BacktestMetrics.market_equity := market_equity;
        BacktestMetrics.drawdown_curve := drawdown;
        BacktestMetrics.returns := returns_list;
        BacktestMetrics.dates := dates data;
        BacktestMetrics.volumes := volumes data;
        BacktestMetrics.trades := trades s;
        BacktestMetrics.prices := closes data;
        BacktestMetrics.buy_signals := buy_signals s;
        BacktestMetrics.sell_signals := sell_signals s;
        BacktestMetrics.data_points := len df;
        BacktestMetrics.date_range := first_date +:+ " to " +:+ last_date |}.

End BacktestEngine.

Import BacktestEngine.

(** ** Vocabulary of the properties *)

(** The close, MACD and signal series have the length of the date series. *)
Definition aligned (data : StockData) : Prop :=
  length (closes data) = length (dates data)
  ∧ length (macd data) = length (dates data)
  ∧ length (macd_signal data) = length (dates data).

(** A well-formed table: all three columns as long as the index. *)
Definition frame_wf (df : frame) : Prop :=
  length (Close df) = len df ∧ length (MACD df) = len df
  ∧ length (Signal df) = len df.

(** Both annualised returns of the input are real numbers: the final
    equity of the strategy and of the market are not negative, or the
    number of periods divides 252.  Otherwise the run ends in the
    [TypeError] of [float_of_power]. *)
Definition annualizable (data : StockData) : bool :=
  match DataFrame data with
  | Ok df =>
      match last (equity_of (cumulative_returns df)),
            last (equity_of (market_cumulative df)) with
      | Some final_equity, Some market_final =>
          real_power (fdiv final_equity initial_capital) (len df)
          && real_power (fdiv market_final initial_capital) (len df)
      | _, _ => true
      end
  | Raise _ => true
  end.

(** Product of a series, accumulated from the left as the running product
    does. *)
Definition fprod (l : list float64) : float64 := foldl fmul f1 l.

Definition qz (z : Z) : Qc := Qc_of_Z z.

(** The five-period scenario: Close = [100,100,110,110,90],
    MACD = [1,1,2,-1,-1], Signal = [0,0,1,0,0]. *)
Definition scenario : StockData := {|
  dates := ["2024-01-01"; "2024-01-02"; "2024-01-03"; "2024-01-04";
            "2024-01-05"];
  closes := qz <$> [100; 100; 110; 110; 90]%Z;
  macd := qz <$> [1; 1; 2; -1; -1]%Z;
  macd_signal := qz <$> [0; 0; 1; 0; 0]%Z;
  volumes := [1000; 1000; 1000; 1000; 1000]%Z
|}.

Definition scenario_df : frame := {|
  index := dates scenario;
  Close := Fin <$> closes scenario;
  MACD := Fin <$> macd scenario;
  Signal := Fin <$> macd_signal scenario
|}.

(** *** The trade ledger in the words of the specification *)

(** One left-to-right scan over the targets, [i] the index of the head of
    [targets] and [open] the entry index of the open position, if any.
    While flat, a target of 1 opens a position; while open, entries are
    ignored and a target of 0 closes the position; a position still open
    at the end is closed on the last index.  The result lists the
    (entry index, exit index) pairs in order. *)
Fixpoint ledger_scan (open : option nat) (i : nat) (targets : list Z)
  : list (nat * nat) :=
  match targets, open with
  | [], None => []
  | [], Some e => [(e, (i - 1)%nat)]
  | z :: rest, None =>
      if bool_decide (z = 1%Z) then ledger_scan (Some i) (S i) rest
      else ledger_scan None (S i) rest
  | z :: rest, Some e =>
      if bool_decide (z = 0%Z) then (e, i) :: ledger_scan None (S i) rest
      else ledger_scan (Some e) (S i) rest
  end.

Definition spec_ledger (targets : list Z) : list (nat * nat) :=
  ledger_scan None 0 targets.

(** The ledger read off the shape of the target series, which starts at
    index [i]: zeros, then a run of ones closed by a zero, and so on.  Each
    run of ones is one trade from the first index of the run to the index
    of the zero that follows it; a run that reaches the end of the series
    is one trade closed on the last index. *)
Inductive runs : nat → list Z → list (nat * nat) → Prop :=
  | runs_flat i a :
      runs i (replicate a 0%Z) []
  | runs_forced i a b :
      runs i (replicate a 0%Z ++ replicate (S b) 1%Z)
           [((i + a)%nat, (i + a + b)%nat)]
  | runs_closed i a b rest l :
      runs (i + a + S b + 1) rest l →
      runs i (replicate a 0%Z ++ replicate (S b) 1%Z ++ 0%Z :: rest)
           (((i + a)%nat, (i + a + S b)%nat) :: l).

(** Consecutive trades do not overlap: each one is closed strictly before
    the next one is opened. *)
Definition non_overlapping (pairs : list (nat * nat)) : Prop :=
  ∀ k e x e' x',
    pairs !! k = Some (e, x) → pairs !! S k = Some (e', x') →
    (e ≤ x)%nat ∧ (x < e')%nat.

(** The record of the trade entered on row [e] and closed on row [x]. *)
Definition is_trade_of (data : StockData) (p : nat * nat)
    (tr : TradeRecord.t) : Prop :=
  let '(e, x) := p in
  ∃ pe px de dx,
    closes data !! e = Some pe ∧ closes data !! x = Some px
    ∧ dates data !! e = Some de ∧ dates data !! x = Some dx
    ∧ let PL := fsub (fsub (Fin px) (Fin pe))
                     (fmul (fmul (Fin pe) commission) (of_Z 2)) in
      tr = {| TradeRecord.entry_date := de;
              TradeRecord.exit_date := dx;
              TradeRecord.entry_price := Fin pe;
              TradeRecord.exit_price := Fin px;
              TradeRecord.profit_loss := PL;
              TradeRecord.profit_loss_pct := fmul (fdiv PL (Fin pe)) f100;
              TradeRecord.duration_days := (Z.of_nat x - Z.of_nat e)%Z;
              TradeRecord.trade_type := "LONG" |}.

(** The entry index of the open position of a loop state. *)
Definition open_of (s : loop_state) : option nat :=
  if position_open s then Some (entry_idx s) else None.

(** The engine's closing code run on rows [e] and [x] gives [tr]. *)
Definition closes_as (df : frame) (p : nat * nat) (tr : TradeRecord.t)
  : Prop :=
  ∃ pe px, Close df !! p.1 = Some pe ∧ Close df !! p.2 = Some px
           ∧ close_trade df p.1 pe p.2 px = Ok tr.

(** Two inputs that differ at most in the MACD and signal values of
    period [t]. *)
Definition differ_only_at (t : nat) (data data' : StockData) : Prop :=
  dates data' = dates data ∧ closes data' = closes data
  ∧ length (macd data') = length (macd data)
  ∧ length (macd_signal data') = length (macd_signal data)
  ∧ (∀ i, i ≠ t → macd data' !! i = macd data !! i)
  ∧ (∀ i, i ≠ t → macd_signal data' !! i = macd_signal data !! i).

(** [data] with MACD[t] and Signal[t] replaced. *)
Definition perturb (t : nat) (m s : Qc) (data : StockData) : StockData := {|
  dates := dates data;
  closes := closes data;
  macd := <[t := m]> (macd data);
  macd_signal := <[t := s]> (macd_signal data);
  volumes := volumes data
|}.

Global Instance aligned_dec (data : StockData) : Decision (aligned data).
Proof. unfold aligned. apply _. Defined.

(** An input is bad when its series are empty or misaligned. *)
Definition bad_input (data : StockData) : Prop :=
  ¬ aligned data ∨ dates data = [].

(** The outcome the specification asks for on a bad input: one of its
    dedicated errors. *)
Definition signals_dedicated_error (r : result BacktestMetrics.t) : Prop :=
  r = Raise InvalidInputError ∨ r = Raise InsufficientDataError.

(** The input without any period. *)
Definition empty_input : StockData := {|
  dates := []; closes := []; macd := []; macd_signal := []; volumes := []
|}.

(** An input whose MACD series is one period short. *)
Definition misaligned_input : StockData := {|
  dates := ["2024-01-01"; "2024-01-02"];
  closes := qz <$> [100; 110]%Z;
  macd := qz <$> [1]%Z;
  macd_signal := qz <$> [0; 0]%Z;
  volumes := [1000; 1000]%Z
|}.

(** The win rate in the words of the specification: missing returns count
    as zero before the periods are counted. *)
Definition spec_win_rate (net_returns : list float64) : float64 :=
  let r := fillna f0 net_returns in
  let winning := count_where (λ x, fgtb x f0) r in
  let nonzero := count_where (λ x, fneb x f0) r in
  if bool_decide (0 < nonzero)%nat
  then fmul (fdiv (of_Z (Z.of_nat winning)) (of_Z (Z.of_nat nonzero))) f100
  else f0.

(** Two periods, long from the first: Close = [100,110], MACD = [1,1],
    Signal = [0,0]. *)
Definition two_period_input : StockData := {|
  dates := ["2024-01-01"; "2024-01-02"];
  closes := qz <$> [100; 110]%Z;
  macd := qz <$> [1; 1]%Z;
  macd_signal := qz <$> [0; 0]%Z;
  volumes := [1000; 1000]%Z
|}.

(** The periods (row numbers) of a series whose value satisfies [p]. *)
Definition periods_where (p : float64 → bool) (l : list float64)
  : list nat :=
  fst <$> filter (λ ix, p ix.2 = true) (imap (λ i x, (i, x)) l).

(** The periods with a nonzero gross strategy return, and the periods in
    which commission is charged (missing counted as zero). *)
Definition return_periods (df : frame) : list nat :=
  periods_where (λ x, fneb x f0) (fillna f0 (Gross_Strategy_Returns df)).

Definition commission_periods (df : frame) : list nat :=
  periods_where (λ x, fneb x f0) (fillna f0 (Commission_Cost df)).

(** The last sentence of the scenario as the specification has it: the
    final equity comes from nonzero returns in periods 2 and 3 and from
    commission in periods 0 and 3. *)
Definition scenario_equity_claim (df : frame) : Prop :=
  return_periods df = [2; 3]%nat ∧ commission_periods df = [0; 3]%nat.

(** Three periods, the signal long in every one: Close = [100,110,121],
    MACD = [1,1,1], Signal = [0,0,0]. *)
Definition always_long_input : StockData := {|
  dates := ["2024-01-01"; "2024-01-02"; "2024-01-03"];
  closes := qz <$> [100; 110; 121]%Z;
  macd := qz <$> [1; 1; 1]%Z;
  macd_signal := qz <$> [0; 0; 0]%Z;
  volumes := [1000; 1000; 1000]%Z
|}.

Definition always_long_df : frame := {|
  index := dates always_long_input;
  Close := Fin <$> closes always_long_input;
  MACD := Fin <$> macd always_long_input;
  Signal := Fin <$> macd_signal always_long_input
|}.

(** Benchmark equivalence as the specification has it, for a signal that
    is long in every period: the reported net return is the period return
    less one commission in period 0, and the period return itself in every
    later period. *)
Definition benchmark_equivalence_claim (df : frame) : Prop :=
  (∀ t, (t < len df)%nat → Target df !! t = Some 1%Z) →
  let net := fillna f0 (Strategy_Returns df) in
  (∀ r, market_returns df !! 0%nat = Some r →
        net !! 0%nat = Some (fsub r commission))
  ∧ (∀ t, (0 < t)%nat → net !! t = market_returns df !! t).

(** A value that is a number: neither missing nor infinite. *)
Definition finite (x : float64) : Prop := is_fin x = true.

(** The drawdown formula as the specification has it, a fraction:
    [Drawdown[t] = Equity[t] / Peak[t] - 1]. *)
Definition drawdown_fraction_claim (equity drawdown : list float64) : Prop :=
  ∀ t e p, equity !! t = Some e → expanding_max equity !! t = Some p →
           drawdown !! t = Some (fsub (fdiv e p) f1).

(** A number that is not negative. *)
Definition nonneg (x : float64) : Prop := ∃ q, x = Fin q ∧ (0 ≤ q)%Qc.

(** The input contract on prices: every close is positive, and no close
    falls below the commission rate (0.2 %) times the previous close. *)
Definition price_contract (data : StockData) : Prop :=
  Forall (λ c, (0 < c)%Qc) (closes data)
  ∧ ∀ t c c', closes data !! t = Some c' → closes data !! S t = Some c →
              (Q2Qc (2 # 1000) * c' ≤ c)%Qc.

(** Three periods with a close of zero in the middle, long in the last:
    Close = [100,0,100], MACD = [0,1,0], Signal = [0,0,0]. *)
Definition zero_close_input : StockData := {|
  dates := ["2024-01-01"; "2024-01-02"; "2024-01-03"];
  closes := qz <$> [100; 0; 100]%Z;
  macd := qz <$> [0; 1; 0]%Z;
  macd_signal := qz <$> [0; 0; 0]%Z;
  volumes := [1000; 1000; 1000]%Z
|}.

(** The equity and drawdown curves of the scenario. *)
Definition scenario_equity : list float64 :=
  equity_of (cumulative_returns scenario_df).

Definition scenario_drawdown : list float64 := drawdown_of scenario_equity.

(** ** Vocabulary of the further properties *)

(** The number of periods in which the target turns from flat to long,
    [prev] being the target before the first period of [targets]. *)
Fixpoint rising_edges (prev : Z) (targets : list Z) : nat :=
  match targets with
  | [] => 0%nat
  | z :: rest =>
      ((if bool_decide (prev ≠ 1%Z) && bool_decide (z = 1%Z)
        then 1 else 0) + rising_edges z rest)%nat
  end.

(** Five periods with a fall of 99.9 % on the day the position is entered:
    Close = [1000,1000,1,1,1], MACD = [0,1,1,1,1], Signal = [0,0,0,0,0]. *)
Definition crash_input : StockData := {|
  dates := ["2024-01-01"; "2024-01-02"; "2024-01-03"; "2024-01-04";
            "2024-01-05"];
  closes := qz <$> [1000; 1000; 1; 1; 1]%Z;
  macd := qz <$> [0; 1; 1; 1; 1]%Z;
  macd_signal := qz <$> [0; 0; 0; 0; 0]%Z;
  volumes := [1000; 1000; 1000; 1000; 1000]%Z
|}.

(** No period is long: three periods with MACD at or below its signal
    line.  Close = [100,110,90], MACD = [0,-1,0], Signal = [0,0,0]. *)
Definition never_long_input : StockData := {|
  dates := ["2024-01-01"; "2024-01-02"; "2024-01-03"];
  closes := qz <$> [100; 110; 90]%Z;
  macd := qz <$> [0; -1; 0]%Z;
  macd_signal := qz <$> [0; 0; 0]%Z;
  volumes := [1000; 1000; 1000]%Z
|}.

(** The same history quoted in another unit: closes, MACD and signal line
    multiplied by [k]. *)
Definition rescale (k : Qc) (data : StockData) : StockData := {|
  dates := dates data;
  closes := Qcmult k <$> closes data;
  macd := Qcmult k <$> macd data;
  macd_signal := Qcmult k <$> macd_signal data;
  volumes := volumes data
|}.

(** [tr'] is the trade [tr] with prices and profit multiplied by [k]. *)
Definition scaled_trade (k : Qc) (tr tr' : TradeRecord.t) : Prop :=
  TradeRecord.entry_date tr' = TradeRecord.entry_date tr
  ∧ TradeRecord.exit_date tr' = TradeRecord.exit_date tr
  ∧ TradeRecord.entry_price tr' = fmul (Fin k) (TradeRecord.entry_price tr)
  ∧ TradeRecord.exit_price tr' = fmul (Fin k) (TradeRecord.exit_price tr)
  ∧ TradeRecord.profit_loss tr' = fmul (Fin k) (TradeRecord.profit_loss tr)
  ∧ TradeRecord.profit_loss_pct tr' = TradeRecord.profit_loss_pct tr
  ∧ TradeRecord.duration_days tr' = TradeRecord.duration_days tr
  ∧ TradeRecord.trade_type tr' = TradeRecord.trade_type tr.

(** The history as it was known after its first [n] periods. *)
Definition history_until (n : nat) (data : StockData) : StockData := {|
  dates := take n (dates data);
  closes := take n (closes data);
  macd := take n (macd data);
  macd_signal := take n (macd_signal data);
  volumes := take n (volumes data)
|}.

(** Three periods, the signal long in the last one only:
    Close = [100,110,120], MACD = [0,0,1], Signal = [0,0,0]. *)
Definition late_entry_input : StockData := {|
  dates := ["2024-01-01"; "2024-01-02"; "2024-01-03"];
  closes := qz <$> [100; 110; 120]%Z;
  macd := qz <$> [0; 0; 1]%Z;
  macd_signal := qz <$> [0; 0; 0]%Z;
  volumes := [1000; 1000; 1000]%Z
|}.

(** ** Facts about the arithmetic and the series operations *)

Lemma Qcltb_lt (x y : Qc) : Qcltb x y = true ↔ x < y.
Proof.
  unfold Qcltb. rewrite Qclt_alt. destruct (x ?= y); intuition congruence.
Qed.

Lemma Qceqb_eq (x y : Qc) : Qceqb x y = true ↔ x = y.
Proof.
  unfold Qceqb. rewrite Qceq_alt. destruct (x ?= y); intuition congruence.
Qed.

Lemma fmul_1_l (x : float64) : fmul f1 x = x.
Proof.
  destruct x as [| | |q]; try reflexivity.
  unfold f1; simpl. by rewrite Qcmult_1_l.
Qed.

Lemma fadd_1_not_nan (x : float64) :
  is_nan x = false → is_nan (fadd f1 x) = false.
Proof. by destruct x. Qed.

Section series.
Implicit Types (l : list float64) (i t : nat).

Lemma length_shift1 l : length (shift1 l) = length l.
Proof. unfold shift1. rewrite length_take. simpl. lia. Qed.

Lemma shift1_lookup_0 l : (0 < length l)%nat → shift1 l !! 0%nat = Some NaN.
Proof. intros H. unfold shift1. by rewrite lookup_take_lt. Qed.

Lemma shift1_lookup_S l i :
  (S i < length l)%nat → shift1 l !! S i = l !! i.
Proof. intros H. unfold shift1. by rewrite lookup_take_lt. Qed.

Lemma length_fillna v l : length (fillna v l) = length l.
Proof. apply length_fmap. Qed.

Lemma fillna_lookup v l i :
  fillna v l !! i = (λ x, if is_nan x then v else x) <$> l !! i.
Proof. apply list_lookup_fmap. Qed.

Lemma fillna_not_nan v l :
  is_nan v = false → Forall (λ x, is_nan x = false) (fillna v l).
Proof.
  intros Hv. apply Forall_fmap, Forall_forall. intros x _. simpl.
  by destruct (is_nan x) eqn:E.
Qed.

Lemma length_pct_change l : length (pct_change l) = length l.
Proof.
  unfold pct_change. rewrite length_zip_with, length_shift1. lia.
Qed.

Lemma length_diff l : length (diff l) = length l.
Proof. unfold diff. rewrite length_zip_with, length_shift1. lia. Qed.

Lemma length_cumprod_from acc l : length (cumprod_from acc l) = length l.
Proof.
  revert acc. induction l as [|x l IH]; intros acc; simpl; [done|].
  destruct (is_nan x); simpl; by rewrite IH.
Qed.

Lemma length_cumprod l : length (cumprod l) = length l.
Proof. apply length_cumprod_from. Qed.

(** On a series without missing values, row [t] of the running product
    is the product of rows [0..t]. *)
Lemma cumprod_from_lookup acc l t :
  Forall (λ x, is_nan x = false) l → (t < length l)%nat →
  cumprod_from acc l !! t = Some (foldl fmul acc (take (S t) l)).
Proof.
  intros Hl. revert acc t.
  induction Hl as [|x l Hx Hl IH]; intros acc t Ht; simpl in *; [lia|].
  rewrite Hx. destruct t as [|t]; simpl.
  - done.
  - apply IH. lia.
Qed.

Lemma length_expanding_max_from acc l :
  length (expanding_max_from acc l) = length l.
Proof.
  revert acc. induction l as [|x l IH]; intros acc; simpl; [done|].
  by rewrite IH.
Qed.
End series.

(** ** The table and its columns *)

Lemma DataFrame_Ok_inv data df :
  DataFrame data = Ok df →
  aligned data
  ∧ index df = dates data ∧ Close df = Fin <$> closes data
  ∧ MACD df = Fin <$> macd data ∧ Signal df = Fin <$> macd_signal data.
Proof.
  unfold DataFrame, aligned. intros H.
  destruct (bool_decide (length (closes data) = _)) eqn:E1; [|done].
  destruct (bool_decide (length (macd data) = _)) eqn:E2; [|done].
  destruct (bool_decide (length (macd_signal data) = _)) eqn:E3; [|done].
  apply bool_decide_eq_true in E1, E2, E3.
  simpl in H. injection H as <-. done.
Qed.

Lemma DataFrame_aligned data :
  aligned data →
  DataFrame data = Ok {| index := dates data;
                         Close := Fin <$> closes data;
                         MACD := Fin <$> macd data;
                         Signal := Fin <$> macd_signal data |}.
Proof.
  intros (H1 & H2 & H3). unfold DataFrame.
  by rewrite !bool_decide_eq_true_2.
Qed.

Lemma DataFrame_misaligned data :
  ¬ aligned data → DataFrame data = Raise ValueError.
Proof.
  intros H. unfold DataFrame.
  destruct (bool_decide (length (closes data) = _)) eqn:E1; [|done].
  destruct (bool_decide (length (macd data) = _)) eqn:E2; [|done].
  destruct (bool_decide (length (macd_signal data) = _)) eqn:E3; [|done].
  apply bool_decide_eq_true in E1, E2, E3. by destruct H.
Qed.

Lemma DataFrame_wf data df : DataFrame data = Ok df → frame_wf df.
Proof.
  intros H. apply DataFrame_Ok_inv in H as (Hal & Hi & Hc & Hm & Hs).
  unfold frame_wf, len. rewrite Hi, Hc, Hm, Hs, !length_fmap. exact Hal.
Qed.

Section columns.
Context (df : frame) (Hwf : frame_wf df).
Implicit Types (t i : nat).

Lemma length_Target : length (Target df) = len df.
Proof.
  destruct Hwf as (_ & H2 & H3). unfold Target.
  rewrite length_zip_with. lia.
Qed.

Lemma Target_lookup t :
  Target df !! t =
    (m ← MACD df !! t; s ← Signal df !! t;
     Some (if fgtb m s then 1%Z else 0%Z)).
Proof. unfold Target. apply lookup_zip_with. Qed.

Lemma Target_binary t z : Target df !! t = Some z → z = 0%Z ∨ z = 1%Z.
Proof.
  rewrite Target_lookup. intros H.
  destruct (MACD df !! t) as [m|]; [|done].
  destruct (Signal df !! t) as [s|]; [|done].
  simpl in H. injection H as <-. destruct (fgtb m s); auto.
Qed.

Lemma length_Position : length (Position df) = len df.
Proof.
  unfold Position.
  by rewrite length_fillna, length_shift1, length_fmap, length_Target.
Qed.

Lemma Position_lookup_0 : (0 < len df)%nat → Position df !! 0%nat = Some f0.
Proof.
  intros H. unfold Position.
  rewrite fillna_lookup, shift1_lookup_0; [done|].
  by rewrite length_fmap, length_Target.
Qed.

Lemma Position_lookup_S t :
  (S t < len df)%nat → Position df !! S t = of_Z <$> Target df !! t.
Proof.
  intros H. unfold Position.
  rewrite fillna_lookup, shift1_lookup_S, list_lookup_fmap.
  - by destruct (Target df !! t).
  - by rewrite length_fmap, length_Target.
Qed.

Lemma length_Returns : length (Returns df) = len df.
Proof. unfold Returns. rewrite length_pct_change. apply Hwf. Qed.

Lemma Returns_lookup_0 : (0 < len df)%nat → Returns df !! 0%nat = Some NaN.
Proof.
  intros H. unfold Returns, pct_change.
  rewrite lookup_zip_with, shift1_lookup_0 by (destruct Hwf; lia).
  destruct (lookup_lt_is_Some_2 (Close df) 0) as [c ->];
    [destruct Hwf; lia|].
  by destruct c.
Qed.

Lemma Returns_lookup_S t :
  Returns df !! S t =
    (c ← Close df !! S t; p ← Close df !! t; Some (fsub (fdiv c p) f1)).
Proof.
  unfold Returns, pct_change. rewrite lookup_zip_with.
  destruct (Close df !! S t) as [c|] eqn:E; [|done].
  apply lookup_lt_Some in E. by rewrite shift1_lookup_S.
Qed.

Lemma length_Position_Change : length (Position_Change df) = len df.
Proof.
  unfold Position_Change.
  by rewrite length_fmap, length_diff, length_Position.
Qed.

Lemma Position_Change_lookup_0 :
  (0 < len df)%nat → Position_Change df !! 0%nat = Some NaN.
Proof.
  intros H. unfold Position_Change, diff.
  rewrite list_lookup_fmap, lookup_zip_with, Position_lookup_0 by done.
  by rewrite shift1_lookup_0 by (rewrite length_Position; lia).
Qed.

Lemma Position_Change_lookup_S t :
  Position_Change df !! S t =
    (p ← Position df !! S t; p' ← Position df !! t;
     Some (fabs (fsub p p'))).
Proof.
  unfold Position_Change, diff. rewrite list_lookup_fmap, lookup_zip_with.
  destruct (Position df !! S t) as [p|] eqn:E; [|done].
  apply lookup_lt_Some in E. rewrite shift1_lookup_S by done.
  by destruct (Position df !! t).
Qed.

Lemma length_Strategy_Returns : length (Strategy_Returns df) = len df.
Proof.
  unfold Strategy_Returns, Gross_Strategy_Returns, Commission_Cost.
  rewrite !length_zip_with, length_fmap, length_Position,
    length_Returns, length_Position_Change. lia.
Qed.

Lemma Strategy_Returns_lookup t :
  Strategy_Returns df !! t =
    (p ← Position df !! t; r ← Returns df !! t;
     pc ← Position_Change df !! t;
     Some (fsub (fmul p r) (fmul pc commission))).
Proof.
  unfold Strategy_Returns, Gross_Strategy_Returns, Commission_Cost.
  rewrite !lookup_zip_with, list_lookup_fmap.
  destruct (Position df !! t); [|done].
  destruct (Returns df !! t); [|done].
  by destruct (Position_Change df !! t).
Qed.

Lemma Strategy_Returns_lookup_0 :
  (0 < len df)%nat → Strategy_Returns df !! 0%nat = Some NaN.
Proof.
  intros H.
  by rewrite Strategy_Returns_lookup, Position_lookup_0, Returns_lookup_0,
    Position_Change_lookup_0.
Qed.
End columns.

(** ** The signal-to-position translator *)

Lemma Qcltb_decide (x y : Qc) : Qcltb x y = bool_decide (x < y).
Proof.
  destruct (Qcltb x y) eqn:E.
  - apply Qcltb_lt in E. by rewrite bool_decide_eq_true_2.
  - rewrite bool_decide_eq_false_2; [done|].
    intros H. apply Qcltb_lt in H. congruence.
Qed.

(** C1.  On every table built from aligned series: [Target] is 1 exactly
    where MACD is strictly above its signal line and 0 elsewhere (ties
    included); [Position] is 0 on the first row and the previous row's
    [Target] on every later row; and on every row [t+1] the net strategy
    return is [Position * (Close[t+1]/Close[t] - 1)] minus
    [|Position[t+1] - Position[t]| * commission].  On the first row, where
    no previous close exists, the column is missing and the reported
    return series holds 0. *)
Theorem translator_correct (data : StockData) (df : frame) :
  DataFrame data = Ok df →
  let n := length (dates data) in
  length (Target df) = n
  ∧ length (Position df) = n
  ∧ length (Strategy_Returns df) = n
  ∧ (∀ t m s, macd data !! t = Some m → macd_signal data !! t = Some s →
       Target df !! t = Some (if decide (s < m) then 1%Z else 0%Z))
  ∧ ((0 < n)%nat → Position df !! 0%nat = Some f0)
  ∧ (∀ t, (S t < n)%nat → Position df !! S t = of_Z <$> Target df !! t)
  ∧ (∀ t c c' p p',
       closes data !! S t = Some c → closes data !! t = Some c' →
       Position df !! S t = Some p → Position df !! t = Some p' →
       Strategy_Returns df !! S t =
         Some (fsub (fmul p (fsub (fdiv (Fin c) (Fin c')) f1))
                    (fmul (fabs (fsub p p')) commission)))
  ∧ ((0 < n)%nat →
       Strategy_Returns df !! 0%nat = Some NaN
       ∧ fillna f0 (Strategy_Returns df) !! 0%nat = Some f0).
Proof.
  intros HDF n. pose proof (DataFrame_wf _ _ HDF) as Hwf.
  apply DataFrame_Ok_inv in HDF as (Hal & Hi & Hc & Hm & Hs).
  assert (Hn : len df = n) by (unfold len; by rewrite Hi).
  repeat split.
  - by rewrite length_Target.
  - by rewrite length_Position.
  - by rewrite length_Strategy_Returns.
  - intros t m s Hmt Hst.
    rewrite Target_lookup, Hm, Hs, !list_lookup_fmap, Hmt, Hst. simpl.
    unfold fgtb. simpl. rewrite Qcltb_decide.
    by destruct (decide (s < m)) as [H|H];
      [rewrite bool_decide_eq_true_2|rewrite bool_decide_eq_false_2].
  - intros H. apply Position_lookup_0; [done|lia].
  - intros t H. apply Position_lookup_S; [done|lia].
  - intros t c c' p p' Hc1 Hc0 Hp1 Hp0.
    rewrite Strategy_Returns_lookup, Hp1, Returns_lookup_S,
      Position_Change_lookup_S, Hp1, Hp0, Hc, !list_lookup_fmap, Hc1, Hc0.
    done.
  - apply Strategy_Returns_lookup_0; [done|lia].
  - rewrite fillna_lookup, Strategy_Returns_lookup_0; [done..|lia].
Qed.

Lemma translator_correct_witness :
  DataFrame scenario = Ok scenario_df
  ∧ Target scenario_df !! 2%nat = Some 1%Z
  ∧ Target scenario_df !! 3%nat = Some 0%Z.
Proof.
  pose proof (translator_correct scenario scenario_df eq_refl)
    as (_ & _ & _ & HT & _).
  split; [reflexivity|]. split.
  - exact (HT 2%nat (qz 2) (qz 1) eq_refl eq_refl).
  - exact (HT 3%nat (qz (-1)) (qz 0) eq_refl eq_refl).
Defined.

(** ** The trade loop *)

Lemma iloc_Some {A} (l : list A) i x : l !! i = Some x → iloc l i = Ok x.
Proof. unfold iloc. by intros ->. Qed.

Lemma iloc_last_lookup {A} (l : list A) x :
  l !! pred (length l) = Some x → iloc_last l = Ok x.
Proof. unfold iloc_last. rewrite last_lookup. by intros ->. Qed.

Lemma bind_Ok {A B} (a : A) (f : A → result B) : (Ok a ≫= f) = f a.
Proof. reflexivity. Qed.

(** While a position entered at [e] is open, the next pair of the ledger
    is the one for [e]. *)
Lemma ledger_scan_open_head e zs : ∀ i,
  ∃ x rest, ledger_scan (Some e) i zs = (e, x) :: rest.
Proof.
  induction zs as [|z zs IH]; intros i; simpl; [eauto|].
  destruct (bool_decide (z = 0%Z)); eauto.
Qed.

Section loop.
Context (df : frame) (Hwf : frame_wf df).

Lemma close_trade_Ok e pe x px :
  (e < len df)%nat → (x < len df)%nat →
  ∃ tr, close_trade df e pe x px = Ok tr.
Proof.
  intros He Hx. unfold close_trade.
  destruct (lookup_lt_is_Some_2 (index df) e He) as [de Hde].
  destruct (lookup_lt_is_Some_2 (index df) x Hx) as [dx Hdx].
  rewrite (iloc_Some _ _ _ Hde), (iloc_Some _ _ _ Hdx). simpl. eauto.
Qed.

Lemma loop_body_enter s i c :
  Target df !! i = Some 1%Z → position_open s = false →
  Close df !! i = Some c →
  loop_body df s i =
    Ok {| position_open := true; entry_idx := i; entry_price := c;
          trades := trades s; buy_signals := buy_signals s ++ [i];
          sell_signals := sell_signals s |}.
Proof.
  intros Hz Ho Hc. unfold loop_body.
  by rewrite (iloc_Some _ _ _ Hz), bind_Ok, Ho, (iloc_Some _ _ _ Hc).
Qed.

Lemma loop_body_exit s i c :
  Target df !! i = Some 0%Z → position_open s = true →
  Close df !! i = Some c →
  loop_body df s i =
    (trade ← close_trade df (entry_idx s) (entry_price s) i c;
     Ok {| position_open := false; entry_idx := entry_idx s;
           entry_price := entry_price s;
           trades := trades s ++ [trade];
           buy_signals := buy_signals s;
           sell_signals := sell_signals s ++ [i] |}).
Proof.
  intros Hz Ho Hc. unfold loop_body.
  by rewrite (iloc_Some _ _ _ Hz), bind_Ok, Ho, (iloc_Some _ _ _ Hc).
Qed.

Lemma loop_body_skip s i z :
  Target df !! i = Some z →
  (if position_open s then z ≠ 0%Z else z ≠ 1%Z) →
  loop_body df s i = Ok s.
Proof.
  intros Hz Ho. unfold loop_body.
  rewrite (iloc_Some _ _ _ Hz), bind_Ok.
  destruct (position_open s); simpl;
    rewrite ?andb_false_r, ?andb_true_r, ?bool_decide_eq_false_2; done.
Qed.

Lemma loop_refines k : ∀ i s,
  (i + k = len df)%nat →
  (position_open s = true →
     (entry_idx s < i)%nat ∧ Close df !! entry_idx s = Some (entry_price s)) →
  ∃ s' trs,
    (for_each (loop_body df) s (seq i k) ≫= close_open_position df) = Ok s'
    ∧ let pairs := ledger_scan (open_of s) i (drop i (Target df)) in
      buy_signals s' =
        buy_signals s ++ drop (if position_open s then 1 else 0) pairs.*1
      ∧ sell_signals s' = sell_signals s ++ pairs.*2
      ∧ trades s' = trades s ++ trs
      ∧ Forall2 (closes_as df) pairs trs.
Proof.
  pose proof (length_Target df Hwf) as HT.
  induction k as [|k IH]; intros i s Hik Hopen.
  - simpl. rewrite (drop_ge (Target df)) by lia. unfold close_open_position, open_of.
    destruct (position_open s) eqn:Eo.
    + destruct (Hopen eq_refl) as [He Hpe].
      destruct (lookup_lt_is_Some_2 (Close df) (pred (length (Close df))))
        as [px Hpx]; [destruct Hwf; lia|].
      rewrite (iloc_last_lookup _ _ Hpx), bind_Ok.
      destruct (close_trade_Ok (entry_idx s) (entry_price s)
                  (len df - 1) px) as [tr Htr]; [lia..|].
      rewrite Htr, bind_Ok. eexists _, [tr]. split; [done|]. simpl.
      replace (i - 0)%nat with i by lia.
      rewrite !app_nil_r. repeat split; try done.
      * by replace (i - 1)%nat with (len df - 1)%nat by lia.
      * constructor; [|constructor]. exists (entry_price s), px. simpl.
        replace (i - 1)%nat with (len df - 1)%nat by lia.
        repeat split; try done.
        destruct Hwf as [-> _] in Hpx.
        by replace (len df - 1)%nat with (pred (len df)) by lia.
    + exists s, []. simpl. rewrite !app_nil_r. repeat split; constructor.
  - destruct (lookup_lt_is_Some_2 (Target df) i) as [z Hz]; [lia|].
    destruct (lookup_lt_is_Some_2 (Close df) i) as [c Hc];
      [destruct Hwf; lia|].
    rewrite (drop_S _ _ _ Hz). cbn [for_each seq ledger_scan].
    unfold open_of at 1 2 3. destruct (position_open s) eqn:Eo.
    + destruct (Hopen eq_refl) as [He Hpe].
      destruct (decide (z = 0%Z)) as [->|Hz0].
      * rewrite bool_decide_eq_true_2 by done.
        rewrite (loop_body_exit s i c) by done.
        destruct (close_trade_Ok (entry_idx s) (entry_price s) i c)
          as [tr Htr]; [lia..|].
        rewrite Htr, !bind_Ok.
        edestruct (IH (S i)) as (s' & trs & Hrun & Hb & Hs & Ht & HF);
          [lia| |rewrite Hrun]; [done|].
        unfold open_of in *. simpl in *.
        exists s', (tr :: trs). split; [done|].
        rewrite Hb, Hs, Ht, <-!app_assoc. simpl.
        repeat split; try done.
        constructor; [|done]. by exists (entry_price s), c.
      * rewrite bool_decide_eq_false_2 by done.
        rewrite (loop_body_skip s i z), bind_Ok by (by rewrite ?Eo).
        edestruct (IH (S i) s) as (s' & trs & Hrun & Hb & Hs & Ht & HF);
          [lia| |rewrite Hrun]; [intros _; split; [lia|done]|].
        unfold open_of in *. rewrite Eo in *.
        exists s', trs. done.
    + destruct (decide (z = 1%Z)) as [->|Hz1].
      * rewrite bool_decide_eq_true_2 by done.
        rewrite (loop_body_enter s i c), !bind_Ok by done.
        edestruct (IH (S i)) as (s' & trs & Hrun & Hb & Hs & Ht & HF);
          [lia| |rewrite Hrun]; [simpl; intros _; split; [lia|done]|].
        unfold open_of in *. simpl in *.
        exists s', trs. split; [done|].
        rewrite Hb, Hs, Ht, <-!app_assoc.
        remember (ledger_scan (Some i) (S i) (drop (S i) (Target df)))
          as pairs eqn:Hp.
        destruct (ledger_scan_open_head i (drop (S i) (Target df)) (S i))
          as (x & rest & Hhd).
        rewrite <-Hp in Hhd. rewrite Hhd in *. simpl.
        rewrite drop_0. repeat split; done.
      * rewrite bool_decide_eq_false_2 by done.
        rewrite (loop_body_skip s i z), bind_Ok by (by rewrite ?Eo).
        edestruct (IH (S i) s) as (s' & trs & Hrun & Hb & Hs & Ht & HF);
          [lia| |rewrite Hrun]; [by rewrite Eo|].
        unfold open_of in *. rewrite Eo in *.
        exists s', trs. done.
Qed.
End loop.

Lemma trade_history_refines (df : frame) :
  frame_wf df →
  ∃ s, trade_history df = Ok s
       ∧ buy_signals s = (spec_ledger (Target df)).*1
       ∧ sell_signals s = (spec_ledger (Target df)).*2
       ∧ Forall2 (closes_as df) (spec_ledger (Target df)) (trades s).
Proof.
  intros Hwf.
  destruct (loop_refines df Hwf (len df) 0 loop_init)
    as (s & trs & Hrun & Hb & Hs & Ht & HF); [done..|].
  exists s. simpl in *. rewrite drop_0 in *.
  unfold trade_history, spec_ledger. subst. eauto.
Qed.

(** ** What [run_backtest] returns *)

Lemma length_cumulative (series : list float64) :
  length (cumulative series) = length series.
Proof.
  unfold cumulative. by rewrite length_cumprod, length_fmap, length_fillna.
Qed.

Lemma length_equity_of (cum : list float64) :
  length (equity_of cum) = length cum.
Proof. apply length_fmap. Qed.

Lemma run_backtest_misaligned (data : StockData) :
  ¬ aligned data → run_backtest data = Raise ValueError.
Proof.
  intros H. unfold run_backtest. by rewrite DataFrame_misaligned.
Qed.

Lemma run_backtest_empty (data : StockData) :
  aligned data → dates data = [] → run_backtest data = Raise IndexError.
Proof.
  intros Hal He. unfold run_backtest.
  rewrite (DataFrame_aligned _ Hal), bind_Ok.
  destruct Hal as (Hc & Hm & Hs). rewrite He in *.
  by destruct (closes data), (macd data), (macd_signal data).
Qed.

(** On aligned, non-empty series [run_backtest] returns a report, whose
    fields are the columns and statistics of the table. *)
Lemma run_backtest_Ok (data : StockData) :
  aligned data → dates data ≠ [] → annualizable data = true →
  ∃ df s m,
    DataFrame data = Ok df ∧ trade_history df = Ok s
    ∧ run_backtest data = Ok m
    ∧ BacktestMetrics.config m = config
    ∧ BacktestMetrics.initial_capital m = initial_capital
    ∧ BacktestMetrics.equity_curve m = equity_of (cumulative_returns df)
    ∧ last (BacktestMetrics.equity_curve m)
      = Some (BacktestMetrics.final_equity m)
    ∧ BacktestMetrics.returns m = fillna f0 (Strategy_Returns df)
    ∧ BacktestMetrics.win_rate m = win_rate_of (Strategy_Returns df)
    ∧ BacktestMetrics.drawdown_curve m
      = drawdown_of (BacktestMetrics.equity_curve m)
    ∧ BacktestMetrics.max_drawdown m
      = series_min (BacktestMetrics.drawdown_curve m)
    ∧ BacktestMetrics.market_equity m = equity_of (market_cumulative df)
    ∧ BacktestMetrics.trades m = trades s
    ∧ BacktestMetrics.total_trades m = length (trades s)
    ∧ BacktestMetrics.buy_signals m = buy_signals s
    ∧ BacktestMetrics.sell_signals m = sell_signals s.
Proof.
  intros Hal Hne Hann.
  pose proof (DataFrame_aligned _ Hal) as HDF.
  pose proof (DataFrame_wf _ _ HDF) as Hwf.
  unfold annualizable in Hann. rewrite HDF in Hann.
  set (df := {| index := dates data |}) in *.
  assert (Hn : (0 < len df)%nat).
  { unfold len. simpl. destruct (dates data); [done|simpl; lia]. }
  destruct (trade_history_refines df Hwf) as (s & Hs & _).
  assert (Hle : length (equity_of (cumulative_returns df)) = len df).
  { unfold cumulative_returns.
    by rewrite length_equity_of, length_cumulative, length_Strategy_Returns. }
  assert (Hlm : length (equity_of (market_cumulative df)) = len df).
  { unfold market_cumulative, market_returns.
    by rewrite length_equity_of, length_cumprod, length_fmap, length_fillna,
      length_Returns. }
  destruct (lookup_lt_is_Some_2 (equity_of (cumulative_returns df))
              (pred (length (equity_of (cumulative_returns df)))))
    as [fe Hfe]; [lia|].
  destruct (lookup_lt_is_Some_2 (equity_of (market_cumulative df))
              (pred (length (equity_of (market_cumulative df)))))
    as [me Hme]; [lia|].
  destruct (lookup_lt_is_Some_2 (index df) 0 Hn) as [d0 Hd0].
  destruct (lookup_lt_is_Some_2 (index df) (pred (length (index df))))
    as [dl Hdl]; [unfold len in *; lia|].
  exists df, s. eexists. split; [done|]. split; [done|].
  unfold run_backtest. rewrite HDF, bind_Ok.
  rewrite (iloc_last_lookup _ _ Hfe), bind_Ok.
  rewrite (iloc_last_lookup _ _ Hme), bind_Ok.
  rewrite Hs, bind_Ok, (iloc_Some _ _ _ Hd0), bind_Ok.
  rewrite (iloc_last_lookup _ _ Hdl), bind_Ok.
  rewrite !last_lookup, Hfe, Hme in Hann.
  apply andb_prop in Hann as [Hr1 Hr2].
  unfold float_of_power. rewrite Hr1, Hr2, !bind_Ok.
  split; [reflexivity|]. simpl. repeat split; try done.
  by rewrite last_lookup.
Qed.

(** When an annualised return is not a real number the run ends in the
    [TypeError] of its conversion. *)
Lemma run_backtest_complex (data : StockData) :
  aligned data → dates data ≠ [] → annualizable data = false →
  run_backtest data = Raise TypeError.
Proof.
  intros Hal Hne Hann.
  pose proof (DataFrame_aligned _ Hal) as HDF.
  pose proof (DataFrame_wf _ _ HDF) as Hwf.
  unfold annualizable in Hann. rewrite HDF in Hann.
  set (df := {| index := dates data |}) in *.
  assert (Hn : (0 < len df)%nat).
  { unfold len. simpl. destruct (dates data); [done|simpl; lia]. }
  destruct (trade_history_refines df Hwf) as (s & Hs & _).
  assert (Hle : length (equity_of (cumulative_returns df)) = len df).
  { unfold cumulative_returns.
    by rewrite length_equity_of, length_cumulative, length_Strategy_Returns. }
  assert (Hlm : length (equity_of (market_cumulative df)) = len df).
  { unfold market_cumulative, market_returns.
    by rewrite length_equity_of, length_cumprod, length_fmap, length_fillna,
      length_Returns. }
  destruct (lookup_lt_is_Some_2 (equity_of (cumulative_returns df))
              (pred (length (equity_of (cumulative_returns df)))))
    as [fe Hfe]; [lia|].
  destruct (lookup_lt_is_Some_2 (equity_of (market_cumulative df))
              (pred (length (equity_of (market_cumulative df)))))
    as [me Hme]; [lia|].
  destruct (lookup_lt_is_Some_2 (index df) 0 Hn) as [d0 Hd0].
  destruct (lookup_lt_is_Some_2 (index df) (pred (length (index df))))
    as [dl Hdl]; [unfold len in *; lia|].
  unfold run_backtest. rewrite HDF, bind_Ok.
  rewrite (iloc_last_lookup _ _ Hfe), bind_Ok.
  rewrite (iloc_last_lookup _ _ Hme), bind_Ok.
  rewrite Hs, bind_Ok, (iloc_Some _ _ _ Hd0), bind_Ok.
  rewrite (iloc_last_lookup _ _ Hdl), bind_Ok.
  rewrite !last_lookup, Hfe, Hme in Hann.
  unfold float_of_power.
  destruct (real_power (fdiv fe initial_capital) (len df)); [|done].
  simpl in Hann. by rewrite bind_Ok, Hann.
Qed.

(** ** The equity curve *)

Lemma cumulative_lookup (series : list float64) (t : nat) :
  (t < length series)%nat →
  cumulative series !! t
  = Some (fprod (fadd f1 <$> take (S t) (fillna f0 series))).
Proof.
  intros Ht. unfold cumulative, cumprod, fprod.
  rewrite cumprod_from_lookup, fmap_take; [done| |].
  - apply Forall_fmap. eapply Forall_impl; [by apply fillna_not_nan|].
    intros x Hx. by apply fadd_1_not_nan.
  - by rewrite length_fmap, length_fillna.
Qed.

(** C2.  On every aligned, non-empty input whose annualised returns are
    real numbers (any input of the price contract is one, and on the
    others the run ends in [TypeError]) the engine returns a report whose
    equity curve has one entry per period, entry [t] being the initial
    capital times the product over [i <= t] of [1 + NetStrategyReturn[i]],
    the returns being the reported ones, in which a missing value (the
    first period's) counts as zero; the final equity is the last entry of
    the curve. *)
Theorem equity_curve_correct (data : StockData) :
  aligned data → dates data ≠ [] → annualizable data = true →
  ∃ df m,
    DataFrame data = Ok df ∧ run_backtest data = Ok m
    ∧ let n := length (dates data) in
      let r := BacktestMetrics.returns m in
      let equity := BacktestMetrics.equity_curve m in
      r = fillna f0 (Strategy_Returns df)
      ∧ r !! 0%nat = Some f0
      ∧ length r = n ∧ length equity = n
      ∧ (∀ t, (t < n)%nat →
           equity !! t
           = Some (fmul initial_capital (fprod (fadd f1 <$> take (S t) r))))
      ∧ last equity = Some (BacktestMetrics.final_equity m).
Proof.
  intros Hal Hne Hann.
  destruct (run_backtest_Ok data Hal Hne Hann)
    as (df & s & m & HDF & _ & Hrun & _ & _ & He & Hl & Hr & _).
  pose proof (DataFrame_wf _ _ HDF) as Hwf.
  apply DataFrame_Ok_inv in HDF as HDF'. destruct HDF' as (_ & Hi & _).
  assert (Hn : len df = length (dates data)) by (unfold len; by rewrite Hi).
  exists df, m. split; [done|]. split; [done|]. simpl.
  rewrite Hr, He, <-Hn. repeat split.
  - rewrite fillna_lookup, Strategy_Returns_lookup_0; [done..|].
    rewrite Hn. destruct (dates data); [done|simpl; lia].
  - by rewrite length_fillna, length_Strategy_Returns.
  - unfold cumulative_returns.
    by rewrite length_equity_of, length_cumulative, length_Strategy_Returns.
  - intros t Ht. unfold equity_of, cumulative_returns.
    rewrite list_lookup_fmap, cumulative_lookup; [done|].
    by rewrite length_Strategy_Returns.
  - by rewrite <-He.
Qed.

Lemma equity_curve_correct_witness :
  aligned scenario ∧ dates scenario ≠ [] ∧ annualizable scenario = true
  ∧ ∃ m, run_backtest scenario = Ok m
         ∧ last (BacktestMetrics.equity_curve m)
           = Some (BacktestMetrics.final_equity m).
Proof.
  assert (Hal : aligned scenario) by (repeat split; reflexivity).
  assert (Hne : dates scenario ≠ []) by discriminate.
  split; [exact Hal|]. split; [exact Hne|]. split; [reflexivity|].
  destruct (equity_curve_correct scenario Hal Hne eq_refl)
    as (df & m & _ & Hrun & _ & _ & _ & _ & _ & Hlast).
  exists m. split; [exact Hrun|exact Hlast].
Defined.

(** ** The trade ledger *)

Local Open Scope nat_scope.

Lemma runs_forced_eq i a b zs p :
  zs = replicate a 0%Z ++ replicate (S b) 1%Z →
  p = ((i + a)%nat, (i + a + b)%nat) → runs i zs [p].
Proof. intros -> ->. constructor. Qed.

Lemma runs_closed_eq i a b rest l zs p j :
  zs = replicate a 0%Z ++ replicate (S b) 1%Z ++ 0%Z :: rest →
  p = ((i + a)%nat, (i + a + S b)%nat) → j = (i + a + S b + 1)%nat →
  runs j rest l → runs i zs (p :: l).
Proof. intros -> -> ->. by constructor. Qed.

Lemma runs_cons_0 i zs l : runs (S i) zs l → runs i (0%Z :: zs) l.
Proof.
  inversion 1 as [j a|j a b|j a b rest l' Hr]; subst.
  - apply (runs_flat i (S a)).
  - apply (runs_forced_eq i (S a) b); [done|f_equal; lia].
  - refine (runs_closed_eq i (S a) b rest l' _ _ (S i + a + S b + 1)
              eq_refl _ _ Hr); [f_equal; lia|lia].
Qed.

Lemma replicate_snoc_app {A} (n : nat) (x : A) (l : list A) :
  replicate n x ++ x :: l = replicate (S n) x ++ l.
Proof. induction n as [|n IH]; simpl; [done|]. by rewrite IH. Qed.

(** The scan of the specification yields the ledger of the runs of ones. *)
Lemma ledger_scan_runs (zs : list Z) :
  Forall (λ z, z = 0%Z ∨ z = 1%Z) zs →
  (∀ i, runs i zs (ledger_scan None i zs))
  ∧ (∀ e i b, (e + S b = i)%nat →
       runs e (replicate (S b) 1%Z ++ zs) (ledger_scan (Some e) i zs)).
Proof.
  induction 1 as [|z zs Hz _ [IHflat IHopen]]; split.
  - intros i. apply (runs_flat i 0).
  - intros e i b Hi. simpl. rewrite app_nil_r.
    apply (runs_forced_eq e 0 b); [done|f_equal; lia].
  - intros i. simpl. destruct Hz as [->| ->]; simpl.
    + apply runs_cons_0, IHflat.
    + apply (IHopen i (S i) 0). lia.
  - intros e i b Hi. simpl. destruct Hz as [->| ->]; simpl.
    + refine (runs_closed_eq e 0 b zs _ _ _ (S i) eq_refl _ _ (IHflat _));
        [f_equal; lia|lia].
    + rewrite replicate_snoc_app. apply IHopen. lia.
Qed.

Lemma runs_lower_bound i zs l :
  runs i zs l → Forall (λ p, (i ≤ p.1)%nat ∧ (p.1 ≤ p.2)%nat) l.
Proof.
  induction 1 as [i a|i a b|i a b rest l Hr IH].
  - constructor.
  - repeat constructor; simpl; lia.
  - constructor; [simpl; lia|].
    eapply Forall_impl; [exact IH|]. simpl. intros p. lia.
Qed.

Lemma runs_non_overlapping i zs l : runs i zs l → non_overlapping l.
Proof.
  induction 1 as [i a|i a b|i a b rest l Hr IH]; intros k e x e' x' H1 H2.
  - done.
  - by destruct k.
  - destruct k as [|k]; simpl in *.
    + injection H1 as <- <-.
      apply runs_lower_bound in Hr.
      apply (Forall_lookup_1 _ _ _ _ Hr) in H2. simpl in H2. lia.
    + by apply (IH k e x e' x').
Qed.

Lemma closes_as_is_trade data df p tr :
  DataFrame data = Ok df → closes_as df p tr → is_trade_of data p tr.
Proof.
  intros HDF (pe & px & He & Hx & Htr).
  apply DataFrame_Ok_inv in HDF as (_ & Hi & Hc & _).
  destruct p as [e x]. simpl in *.
  rewrite Hc, list_lookup_fmap in He, Hx.
  destruct (closes data !! e) as [qe|] eqn:Ee; [|done].
  destruct (closes data !! x) as [qx|] eqn:Ex; [|done].
  simpl in He, Hx. injection He as <-. injection Hx as <-.
  unfold close_trade, iloc in Htr. rewrite Hi in Htr.
  destruct (dates data !! e) as [de|] eqn:Ede; [|done].
  destruct (dates data !! x) as [dx|] eqn:Edx; [|done].
  simpl in Htr. injection Htr as <-.
  exists qe, qx, de, dx. done.
Qed.

(** C3.  On every aligned, non-empty input on which the engine returns
    (its annualised returns are real numbers) the ledger of the report is
    the one of a single left-to-right scan over [Target]: a position opens at
    the first period with target 1 while flat, further entries are ignored
    while it is open, it closes at the next period with target 0, and a
    position still open at the end is closed on the last period.  So the
    trades are the runs of ones of [Target], never overlap, and the trade
    for rows (e, x) has PL = (Close[x] - Close[e]) - Close[e]*commission*2,
    PL% = PL / Close[e] * 100, duration x - e and type LONG. *)
Theorem trade_ledger_correct (data : StockData) :
  aligned data → dates data ≠ [] → annualizable data = true →
  ∃ df m,
    DataFrame data = Ok df ∧ run_backtest data = Ok m
    ∧ let pairs := spec_ledger (Target df) in
      BacktestMetrics.buy_signals m = pairs.*1
      ∧ BacktestMetrics.sell_signals m = pairs.*2
      ∧ BacktestMetrics.total_trades m = length pairs
      ∧ Forall2 (is_trade_of data) pairs (BacktestMetrics.trades m)
      ∧ Forall (λ tr, TradeRecord.trade_type tr = "LONG")
               (BacktestMetrics.trades m)
      ∧ runs 0 (Target df) pairs
      ∧ non_overlapping pairs.
Proof.
  intros Hal Hne Hann.
  destruct (run_backtest_Ok data Hal Hne Hann)
    as (df & s & m & HDF & Hs & Hrun & Hrest).
  destruct Hrest as (_&_&_&_&_&_&_&_&_& Ht & Hn & Hb & Hsl).
  pose proof (DataFrame_wf _ _ HDF) as Hwf.
  destruct (trade_history_refines df Hwf) as (s' & Hs' & Hb' & Hsl' & HF).
  rewrite Hs in Hs'. injection Hs' as <-.
  assert (HF' : Forall2 (is_trade_of data) (spec_ledger (Target df))
                        (trades s)).
  { eapply Forall2_impl; [exact HF|]. intros p tr.
    by apply closes_as_is_trade. }
  assert (Hruns : runs 0 (Target df) (spec_ledger (Target df))).
  { apply ledger_scan_runs, Forall_lookup. intros t z.
    apply Target_binary. }
  exists df, m. split; [done|]. split; [done|]. simpl.
  rewrite Hb, Hsl, Ht, Hn. split_and!; try done.
  - symmetry. by eapply Forall2_length.
  - clear -HF'. induction HF' as [|p tr ps trs Hp _ IH]; constructor; [|done].
    destruct p as [e x]. by destruct Hp as (?&?&?&?&?&?&?&?& ->).
  - by eapply runs_non_overlapping.
Qed.

Lemma trade_ledger_correct_witness :
  aligned scenario ∧ dates scenario ≠ [] ∧ annualizable scenario = true
  ∧ ∃ m, run_backtest scenario = Ok m
         ∧ BacktestMetrics.buy_signals m = [0%nat]
         ∧ BacktestMetrics.sell_signals m = [3%nat].
Proof.
  assert (Hal : aligned scenario) by (repeat split; reflexivity).
  assert (Hne : dates scenario ≠ []) by discriminate.
  split; [exact Hal|]. split; [exact Hne|]. split; [reflexivity|].
  destruct (trade_ledger_correct scenario Hal Hne eq_refl)
    as (df & m & HDF & Hrun & Hb & Hs & _).
  exists m. split; [exact Hrun|].
  change (DataFrame scenario) with (Ok scenario_df) in HDF.
  injection HDF as <-.
  split; [exact Hb|exact Hs].
Defined.

(** ** No lookahead *)

Section two_runs.
Context (t : nat) (df df' : frame).
Context (Hwf : frame_wf df) (Hwf' : frame_wf df').
Context (Hlen : len df' = len df) (HClose : Close df' = Close df).
Context (HTarget : ∀ i, i ≠ t → Target df' !! i = Target df !! i).

Lemma Position_two_runs i : i ≠ S t → Position df' !! i = Position df !! i.
Proof.
  intros Hi. destruct (decide (i < len df)) as [Hlt|Hge].
  - destruct i as [|j].
    + rewrite !Position_lookup_0; [done..|lia].
    + rewrite !Position_lookup_S by (done || lia).
      rewrite HTarget; [done|lia].
  - rewrite !lookup_ge_None_2; [done|..];
      rewrite length_Position by done; lia.
Qed.

Lemma Returns_two_runs : Returns df' = Returns df.
Proof. unfold Returns. by rewrite HClose. Qed.

Lemma Position_Change_two_runs i :
  i ≤ t → Position_Change df' !! i = Position_Change df !! i.
Proof.
  intros Hi. destruct i as [|j].
  - destruct (decide (0 < len df)) as [Hlt|Hge].
    + rewrite !Position_Change_lookup_0; [done..|lia].
    + rewrite !lookup_ge_None_2; [done|..];
        rewrite length_Position_Change by done; lia.
  - rewrite !Position_Change_lookup_S.
    rewrite (Position_two_runs (S j)), (Position_two_runs j) by lia. done.
Qed.

Lemma Strategy_Returns_two_runs i :
  i ≤ t → Strategy_Returns df' !! i = Strategy_Returns df !! i.
Proof.
  intros Hi. rewrite !Strategy_Returns_lookup.
  rewrite Position_two_runs, Returns_two_runs, Position_Change_two_runs
    by lia. done.
Qed.
End two_runs.

Lemma differ_only_at_Target t data data' df df' :
  differ_only_at t data data' →
  DataFrame data = Ok df → DataFrame data' = Ok df' →
  len df' = len df ∧ Close df' = Close df
  ∧ ∀ i, i ≠ t → Target df' !! i = Target df !! i.
Proof.
  intros (Hd & Hc & _ & _ & Hm & Hs) HDF HDF'.
  apply DataFrame_Ok_inv in HDF as (_ & Hi & HC & HM & HS).
  apply DataFrame_Ok_inv in HDF' as (_ & Hi' & HC' & HM' & HS').
  split_and!.
  - unfold len. by rewrite Hi, Hi', Hd.
  - by rewrite HC, HC', Hc.
  - intros i Hne. unfold Target.
    rewrite !lookup_zip_with, HM, HM', HS, HS', !list_lookup_fmap.
    by rewrite Hm, Hs.
Qed.

Lemma perturb_differ_only_at t m s data :
  differ_only_at t data (perturb t m s data).
Proof.
  unfold differ_only_at, perturb. simpl.
  split_and!; try done; try apply length_insert;
    intros i Hi; by apply list_lookup_insert_ne.
Qed.

(** C4.  Take two runs on inputs that differ at most in MACD[t] and
    Signal[t].  Then the position of period [t] is the same in both, and
    so is the net strategy return of period [t], in the table and as
    reported; indeed nothing up to period [t] changes.  In each run the
    position of a period after the first is the target of the period
    before it, and the first position is 0. *)
Theorem no_lookahead (t : nat) (data data' : StockData) (df df' : frame) :
  differ_only_at t data data' →
  DataFrame data = Ok df → DataFrame data' = Ok df' →
  Position df' !! t = Position df !! t
  ∧ Strategy_Returns df' !! t = Strategy_Returns df !! t
  ∧ fillna f0 (Strategy_Returns df') !! t
    = fillna f0 (Strategy_Returns df) !! t
  ∧ (∀ i, i ≤ t →
       Position df' !! i = Position df !! i
       ∧ Strategy_Returns df' !! i = Strategy_Returns df !! i)
  ∧ (0 < len df → Position df !! 0 = Some f0)
  ∧ (∀ i, S i < len df → Position df !! S i = of_Z <$> Target df !! i).
Proof.
  intros Hdiff HDF HDF'.
  pose proof (DataFrame_wf _ _ HDF) as Hwf.
  pose proof (DataFrame_wf _ _ HDF') as Hwf'.
  destruct (differ_only_at_Target _ _ _ _ _ Hdiff HDF HDF')
    as (Hlen & HC & HT).
  split_and!.
  - apply (Position_two_runs t df df'); (done || lia).
  - apply (Strategy_Returns_two_runs t df df'); (done || lia).
  - rewrite !fillna_lookup.
    rewrite (Strategy_Returns_two_runs t df df'); (done || lia).
  - intros i Hi. split.
    + apply (Position_two_runs t df df'); (done || lia).
    + by apply (Strategy_Returns_two_runs t df df').
  - by apply Position_lookup_0.
  - intros i Hi. by apply Position_lookup_S.
Qed.

Lemma no_lookahead_witness :
  differ_only_at 2 scenario (perturb 2 (qz (-5)) (qz 7) scenario)
  ∧ Position scenario_df !! 2 = Some (of_Z 1)
  ∧ ∃ df', DataFrame (perturb 2 (qz (-5)) (qz 7) scenario) = Ok df'
           ∧ Target df' !! 2 = Some 0%Z
           ∧ Position df' !! 2 = Position scenario_df !! 2.
Proof.
  split; [apply perturb_differ_only_at|]. split; [reflexivity|].
  eexists. split; [reflexivity|]. split; [reflexivity|].
  exact (proj1 (no_lookahead 2 scenario _ scenario_df _
                  (perturb_differ_only_at 2 (qz (-5)) (qz 7) scenario)
                  eq_refl eq_refl)).
Defined.

(** ** Configuration *)

Lemma run_backtest_Ok_inv (data : StockData) (m : BacktestMetrics.t) :
  run_backtest data = Ok m →
  aligned data ∧ dates data ≠ [] ∧ annualizable data = true.
Proof.
  intros H. destruct (decide (aligned data)) as [Hal|Hal].
  - assert (Hne : dates data ≠ []).
    { intros He. by rewrite (run_backtest_empty _ Hal He) in H. }
    split_and!; [done..|].
    destruct (annualizable data) eqn:Hann; [done|].
    by rewrite (run_backtest_complex _ Hal Hne Hann) in H.
  - by rewrite (run_backtest_misaligned _ Hal) in H.
Qed.

(** C10.  Whatever the input, a returned report echoes the fixed
    configuration: strategy "MLStrategy", initial capital 1,000,000,
    commission 0.002, trade on close, "Long-only"; its capital figure is
    1,000,000 too.  The input carries no capital or commission, so any two
    runs report the same configuration. *)
Theorem fixed_configuration (data : StockData) (m : BacktestMetrics.t) :
  run_backtest data = Ok m →
  BacktestMetrics.config m
  = {| StrategyConfig.strategy_name := "MLStrategy";
       StrategyConfig.initial_capital := of_Z 1000000;
       StrategyConfig.commission := Fin (Q2Qc (2 # 1000));
       StrategyConfig.trade_on_close := true;
       StrategyConfig.position_type := "Long-only" |}
  ∧ BacktestMetrics.initial_capital m = of_Z 1000000
  ∧ ∀ data' m', run_backtest data' = Ok m' →
      BacktestMetrics.config m' = BacktestMetrics.config m
      ∧ BacktestMetrics.initial_capital m'
        = BacktestMetrics.initial_capital m.
Proof.
  assert (Hfix : ∀ d r, run_backtest d = Ok r →
            BacktestMetrics.config r = config
            ∧ BacktestMetrics.initial_capital r = initial_capital).
  { intros d r Hr. destruct (run_backtest_Ok_inv _ _ Hr) as (Hal & Hne & Hann).
    destruct (run_backtest_Ok d Hal Hne Hann)
      as (df & s & r' & _ & _ & Hr' & Hc & Hi & _).
    rewrite Hr in Hr'. injection Hr' as <-. done. }
  intros Hm. destruct (Hfix _ _ Hm) as [Hc Hi].
  split_and!; [by rewrite Hc|by rewrite Hi|].
  intros data' m' Hm'. destruct (Hfix _ _ Hm') as [Hc' Hi'].
  by rewrite Hc, Hi, Hc', Hi'.
Qed.

Lemma fixed_configuration_witness :
  ∃ m, run_backtest scenario = Ok m
       ∧ BacktestMetrics.initial_capital m = of_Z 1000000.
Proof.
  destruct (run_backtest_Ok scenario) as (df & s & m & _ & _ & Hm & _).
  - repeat split; reflexivity.
  - discriminate.
  - reflexivity.
  - exists m. split; [exact Hm|].
    exact (proj1 (proj2 (fixed_configuration scenario m Hm))).
Defined.

(** ** Bad inputs *)




(** ** Win rate *)

(** Equality of evaluated numbers, lists and options of numbers: two
    canonical rationals are equal when their fractions are. *)
Ltac float_eq :=
  vm_compute;
  repeat first
    [ reflexivity
    | apply (f_equal Fin), Qc_is_canon; reflexivity
    | apply (f_equal (@Some _))
    | apply (f_equal2 (@cons _)) ].

(** C5 fails on the code: the missing first-period return is not replaced
    by zero before the periods are counted, and since a missing value
    differs from 0 it is counted in the denominator.  On the two-period
    input the only defined return is a gain (0.098): the specification's
    win rate is 100, the reported one 50. *)
Theorem win_rate_counts_missing_period :
  ∃ df m,
    DataFrame two_period_input = Ok df
    ∧ run_backtest two_period_input = Ok m
    ∧ Strategy_Returns df = [NaN; Fin (Q2Qc (98 # 1000))]
    ∧ count_where (λ x, fneb x f0) (Strategy_Returns df) = 2%nat
    ∧ BacktestMetrics.win_rate m = Fin (Q2Qc 50)
    ∧ spec_win_rate (Strategy_Returns df) = Fin (Q2Qc 100).
Proof.
  eexists _, _. split; [reflexivity|]. split; [vm_compute; reflexivity|].
  split_and!; float_eq.
Qed.

(** ** The five-period scenario *)

(** C8, as stated, fails in its last sentence: the only period with a
    nonzero gross strategy return is period 2 (in period 3 the price does
    not move), and commission is charged in periods 1 and 4, where the
    lagged position changes, not in periods 0 and 3. *)
Lemma scenario_equity_counterexample :
  return_periods scenario_df = [2]
  ∧ commission_periods scenario_df = [1; 4]
  ∧ ¬ scenario_equity_claim scenario_df.
Proof.
  assert (H1 : return_periods scenario_df = [2]) by reflexivity.
  assert (H2 : commission_periods scenario_df = [1; 4]) by reflexivity.
  split; [exact H1|]. split; [exact H2|].
  intros [H _]. rewrite H1 in H. discriminate H.
Qed.

(** C8, amended.  On the scenario, Target = [1,1,1,0,0] and
    Position = [0,1,1,1,0]; the ledger holds exactly one trade, opened in
    period 0 at 100 and closed in period 3 at 110, with PL = 9.6; the net
    returns are [0, -0.002, 0.1, 0, -0.002]: one period with a nonzero
    gross return (period 2) and one commission in each of periods 1 and 4;
    the final equity is 1,000,000 * 0.998 * 1.1 * 0.998 = 1,095,604.4. *)
Theorem scenario_correct :
  ∃ m tr,
    run_backtest scenario = Ok m
    ∧ Target scenario_df = [1; 1; 1; 0; 0]%Z
    ∧ Position scenario_df = of_Z <$> [0; 1; 1; 1; 0]%Z
    ∧ BacktestMetrics.buy_signals m = [0]
    ∧ BacktestMetrics.sell_signals m = [3]
    ∧ BacktestMetrics.total_trades m = 1
    ∧ BacktestMetrics.trades m = [tr]
    ∧ TradeRecord.entry_date tr = "2024-01-01"
    ∧ TradeRecord.exit_date tr = "2024-01-04"
    ∧ TradeRecord.entry_price tr = of_Z 100
    ∧ TradeRecord.exit_price tr = of_Z 110
    ∧ TradeRecord.profit_loss tr = Fin (Q2Qc (96 # 10))
    ∧ TradeRecord.profit_loss_pct tr = Fin (Q2Qc (96 # 10))
    ∧ TradeRecord.duration_days tr = 3%Z
    ∧ TradeRecord.trade_type tr = "LONG"
    ∧ BacktestMetrics.returns m
      = [f0; Fin (Q2Qc (-2 # 1000)); Fin (Q2Qc (1 # 10)); f0;
         Fin (Q2Qc (-2 # 1000))]
    ∧ return_periods scenario_df = [2]
    ∧ commission_periods scenario_df = [1; 4]
    ∧ BacktestMetrics.final_equity m
      = fmul (fmul (fmul initial_capital (Fin (Q2Qc (998 # 1000))))
                   (Fin (Q2Qc (11 # 10))))
             (Fin (Q2Qc (998 # 1000)))
    ∧ BacktestMetrics.final_equity m = Fin (Q2Qc (10956044 # 10)).
Proof.
  eexists _, _. split; [vm_compute; reflexivity|]. split_and!; float_eq.
Qed.

(** ** Benchmark equivalence *)

Lemma of_Z_1 : of_Z 1 = f1.
Proof. float_eq. Qed.

Lemma fsub_0_r (x : float64) : fsub x f0 = x.
Proof.
  destruct x as [| | |q]; try reflexivity.
  unfold fsub, f0. simpl. f_equal. ring.
Qed.

Lemma fabs_one_minus_zero : fabs (fsub (of_Z 1) f0) = f1.
Proof. float_eq. Qed.

Lemma fabs_one_minus_one : fabs (fsub (of_Z 1) (of_Z 1)) = f0.
Proof. float_eq. Qed.

Lemma fmul_0_commission : fmul f0 commission = f0.
Proof. float_eq. Qed.

(** C9, as stated, fails.  With the signal long in every period the
    position is still flat in period 0, so the reported net return of
    period 0 is 0, not the period return less a commission; the one
    commission is charged in period 1. *)
Lemma benchmark_equivalence_counterexample :
  (∀ t, t < len always_long_df → Target always_long_df !! t = Some 1%Z)
  ∧ Position always_long_df !! 0 = Some f0
  ∧ fillna f0 (Strategy_Returns always_long_df) !! 0 = Some f0
  ∧ market_returns always_long_df !! 0 = Some f0
  ∧ fillna f0 (Strategy_Returns always_long_df) !! 1
    = Some (Fin (Q2Qc (98 # 1000)))
  ∧ market_returns always_long_df !! 1 = Some (Fin (Q2Qc (1 # 10)))
  ∧ ¬ benchmark_equivalence_claim always_long_df.
Proof.
  assert (HT : ∀ t, t < len always_long_df →
                    Target always_long_df !! t = Some 1%Z).
  { intros t Ht. change (len always_long_df) with 3 in Ht.
    destruct t as [|[|[|t]]]; [reflexivity..|lia]. }
  split; [exact HT|]. split_and!; try float_eq.
  intros Hclaim. destruct (Hclaim HT) as [H0 _].
  specialize (H0 f0 eq_refl). vm_compute in H0. discriminate H0.
Qed.


(** ** Finite values and their order *)

Lemma finite_Fin (x : float64) : finite x → ∃ q, x = Fin q.
Proof. destruct x; try done. eauto. Qed.

Lemma Qceqb_false (x y : Qc) : x ≠ y → Qceqb x y = false.
Proof.
  intros H. destruct (Qceqb x y) eqn:E; [|done].
  by apply Qceqb_eq in E.
Qed.

Lemma fleb_Fin (a b : Qc) : fleb (Fin a) (Fin b) = true ↔ (a ≤ b)%Qc.
Proof.
  unfold fleb. simpl. rewrite orb_true_iff, Qcltb_lt, Qceqb_eq. split.
  - intros [H| ->]; [by apply Qclt_le_weak|apply Qcle_refl].
  - intros H. by apply Qcle_lt_or_eq.
Qed.

Lemma fleb_refl (x : float64) : finite x → fleb x x = true.
Proof.
  intros [q ->]%finite_Fin. apply fleb_Fin, Qcle_refl.
Qed.

Lemma fleb_trans (x y z : float64) :
  finite x → finite y → finite z →
  fleb x y = true → fleb y z = true → fleb x z = true.
Proof.
  intros [a ->]%finite_Fin [b ->]%finite_Fin [c ->]%finite_Fin.
  rewrite !fleb_Fin. apply Qcle_trans.
Qed.

Lemma fmax_spec (x y : float64) :
  finite x → finite y →
  finite (fmax x y) ∧ fleb x (fmax x y) = true ∧ fleb y (fmax x y) = true
  ∧ (fmax x y = x ∨ fmax x y = y).
Proof.
  intros [a ->]%finite_Fin [b ->]%finite_Fin. unfold fmax. simpl.
  destruct (Qcltb a b) eqn:E.
  - apply Qcltb_lt in E. split_and!; [done| |apply fleb_refl; done|by right].
    by apply fleb_Fin, Qclt_le_weak.
  - split_and!; [done|apply fleb_refl; done| |by left].
    apply fleb_Fin, Qcnot_lt_le. intros H%Qcltb_lt. congruence.
Qed.

Lemma fmin_spec (x y : float64) :
  finite x → finite y →
  finite (fmin x y) ∧ fleb (fmin x y) x = true ∧ fleb (fmin x y) y = true
  ∧ (fmin x y = x ∨ fmin x y = y).
Proof.
  intros [a ->]%finite_Fin [b ->]%finite_Fin. unfold fmin. simpl.
  destruct (Qcltb b a) eqn:E.
  - apply Qcltb_lt in E. split_and!; [done| |apply fleb_refl; done|by right].
    by apply fleb_Fin, Qclt_le_weak.
  - split_and!; [done|apply fleb_refl; done| |by left].
    apply fleb_Fin, Qcnot_lt_le. intros H%Qcltb_lt. congruence.
Qed.

Lemma finite_not_nan (x : float64) : finite x → is_nan x = false.
Proof. by destruct x. Qed.

Lemma finite_fadd x y : finite x → finite y → finite (fadd x y).
Proof. by intros [a ->]%finite_Fin [b ->]%finite_Fin. Qed.

Lemma finite_fsub x y : finite x → finite y → finite (fsub x y).
Proof. by intros [a ->]%finite_Fin [b ->]%finite_Fin. Qed.

Lemma finite_fmul x y : finite x → finite y → finite (fmul x y).
Proof. by intros [a ->]%finite_Fin [b ->]%finite_Fin. Qed.

Lemma finite_fabs x : finite x → finite (fabs x).
Proof. by intros [a ->]%finite_Fin. Qed.

Lemma finite_fdiv x (b : Qc) : finite x → b ≠ 0%Qc → finite (fdiv x (Fin b)).
Proof.
  intros [a ->]%finite_Fin Hb. unfold finite. simpl.
  by rewrite Qceqb_false.
Qed.

(** *** Running maximum and minimum of finite series *)

Lemma expanding_max_from_spec (l : list float64) : ∀ acc t p,
  finite acc → Forall finite l →
  expanding_max_from acc l !! t = Some p →
  finite p ∧ fleb acc p = true
  ∧ (∀ j e, j ≤ t → l !! j = Some e → fleb e p = true)
  ∧ (p = acc ∨ ∃ j, j ≤ t ∧ l !! j = Some p).
Proof.
  induction l as [|x l IH]; intros acc t p Hacc Hl Hp; [done|].
  apply Forall_cons in Hl as [Hx Hl]. simpl in Hp.
  rewrite (finite_not_nan x), (finite_not_nan acc) in Hp by done.
  destruct (fmax_spec acc x Hacc Hx) as (Hf & Ha & Hxm & Hor).
  destruct t as [|t]; simpl in Hp.
  - injection Hp as <-. split_and!; [done..| |].
    + intros [|j] e Hj He; [|lia]. simpl in He. by injection He as <-.
    + destruct Hor as [->| ->]; [by left|right]. by exists 0.
  - destruct (IH _ _ _ Hf Hl Hp) as (Hfp & Hle & Hall & Hmem).
    split_and!; [done| | |].
    + by apply (fleb_trans acc (fmax acc x) p).
    + intros [|j] e Hj He; simpl in He.
      * injection He as <-. by apply (fleb_trans x (fmax acc x) p).
      * apply (Hall j); [lia|done].
    + destruct Hmem as [->|(j & Hj & Hpj)].
      * destruct Hor as [->| ->]; [by left|right]. exists 0. split; [lia|done].
      * right. exists (S j). split; [lia|done].
Qed.

(** On a finite series, row [t] of the running maximum is the greatest of
    rows [0..t]. *)
Lemma expanding_max_spec (l : list float64) (t : nat) (p : float64) :
  Forall finite l → expanding_max l !! t = Some p →
  finite p
  ∧ (∀ j e, j ≤ t → l !! j = Some e → fleb e p = true)
  ∧ (∃ j, j ≤ t ∧ l !! j = Some p).
Proof.
  intros Hl Hp. destruct l as [|x l]; [done|].
  apply Forall_cons in Hl as [Hx Hl]. unfold expanding_max in Hp.
  simpl in Hp. rewrite (finite_not_nan x) in Hp by done.
  destruct t as [|t]; simpl in Hp.
  - injection Hp as <-. split_and!; [done| |by exists 0].
    intros [|j] e Hj He; [|lia]. simpl in He. injection He as <-.
    by apply fleb_refl.
  - destruct (expanding_max_from_spec _ _ _ _ Hx Hl Hp)
      as (Hfp & Hle & Hall & Hmem).
    split_and!; [done| |].
    + intros [|j] e Hj He; simpl in He.
      * by injection He as <-.
      * apply (Hall j); [lia|done].
    + destruct Hmem as [->|(j & Hj & Hpj)].
      * exists 0. split; [lia|done].
      * exists (S j). split; [lia|done].
Qed.

Lemma length_expanding_max (l : list float64) :
  length (expanding_max l) = length l.
Proof. apply length_expanding_max_from. Qed.

Lemma series_min_from_spec (l : list float64) : ∀ acc,
  finite acc → Forall finite l →
  let m := foldl (λ acc x, if is_nan x then acc
                           else if is_nan acc then x else fmin acc x)
                 acc l in
  finite m ∧ fleb m acc = true
  ∧ (∀ j d, l !! j = Some d → fleb m d = true)
  ∧ (m = acc ∨ ∃ j, l !! j = Some m).
Proof.
  induction l as [|x l IH]; intros acc Hacc Hl; simpl.
  - split_and!; [done|by apply fleb_refl|done|by left].
  - apply Forall_cons in Hl as [Hx Hl].
    rewrite (finite_not_nan x), (finite_not_nan acc) by done.
    destruct (fmin_spec acc x Hacc Hx) as (Hf & Ha & Hxm & Hor).
    destruct (IH _ Hf Hl) as (Hfm & Hle & Hall & Hmem).
    split_and!; [done| | |].
    + by apply (fleb_trans _ (fmin acc x) acc).
    + intros [|j] d Hd; simpl in Hd.
      * injection Hd as <-. by apply (fleb_trans _ (fmin acc x) x).
      * by apply (Hall j).
    + destruct Hmem as [Hm|(j & Hj)].
      * rewrite Hm. destruct Hor as [->| ->]; [by left|right]. by exists 0.
      * right. by exists (S j).
Qed.

(** On a finite, non-empty series [series_min] is the least entry. *)
Lemma series_min_spec (l : list float64) :
  Forall finite l → l ≠ [] →
  finite (series_min l)
  ∧ (∀ j d, l !! j = Some d → fleb (series_min l) d = true)
  ∧ (∃ j, l !! j = Some (series_min l)).
Proof.
  intros Hl Hne. destruct l as [|x l]; [done|].
  apply Forall_cons in Hl as [Hx Hl]. unfold series_min. simpl.
  rewrite (finite_not_nan x) by done.
  destruct (series_min_from_spec l x Hx Hl) as (Hfm & Hle & Hall & Hmem).
  simpl in *. split_and!; [done| |].
  - intros [|j] d Hd; simpl in Hd.
    + by injection Hd as <-.
    + by apply (Hall j).
  - destruct Hmem as [->|(j & Hj)]; [by exists 0|by exists (S j)].
Qed.

(** ** Finite tables *)

Lemma cumprod_from_finite (l : list float64) : ∀ acc,
  finite acc → Forall finite l → Forall finite (cumprod_from acc l).
Proof.
  induction l as [|x l IH]; intros acc Hacc Hl; simpl; [constructor|].
  apply Forall_cons in Hl as [Hx Hl].
  rewrite (finite_not_nan x) by done.
  constructor; [by apply finite_fmul|]. apply IH; [by apply finite_fmul|done].
Qed.

Section finite_table.
Context (data : StockData) (df : frame).
Context (HDF : DataFrame data = Ok df).
Context (Hclose : Forall (λ c, c ≠ 0%Qc) (closes data)).

Lemma Position_finite t p : Position df !! t = Some p → finite p.
Proof.
  pose proof (DataFrame_wf _ _ HDF) as Hwf.
  intros Hp. apply lookup_lt_Some in Hp as Ht.
  rewrite length_Position in Ht by done. destruct t as [|j].
  - rewrite Position_lookup_0 in Hp by done. by injection Hp as <-.
  - rewrite Position_lookup_S in Hp by done.
    destruct (Target df !! j); [|done]. by injection Hp as <-.
Qed.

Lemma Returns_finite t r : Returns df !! S t = Some r → finite r.
Proof.
  destruct (DataFrame_Ok_inv _ _ HDF) as (_ & _ & Hc & _).
  rewrite Returns_lookup_S, Hc, !list_lookup_fmap.
  destruct (closes data !! S t) as [c|]; [|done].
  destruct (closes data !! t) as [c'|] eqn:Ec'; [|done].
  assert (Hc0 : c' ≠ 0%Qc) by apply (Forall_lookup_1 _ _ _ _ Hclose Ec').
  simpl. intros [= <-]. unfold finite. simpl. by rewrite Qceqb_false.
Qed.

Lemma Strategy_Returns_finite t y :
  Strategy_Returns df !! S t = Some y → finite y.
Proof.
  rewrite Strategy_Returns_lookup, Position_Change_lookup_S. intros Ey.
  destruct (Position df !! S t) as [p|] eqn:Ep; [|done].
  destruct (Returns df !! S t) as [r|] eqn:Er; [|done].
  destruct (Position df !! t) as [p'|] eqn:Ep'; [|done].
  simpl in Ey. injection Ey as <-.
  apply Position_finite in Ep, Ep'. apply Returns_finite in Er.
  apply finite_fsub; apply finite_fmul; try done.
  by apply finite_fabs, finite_fsub.
Qed.

Lemma net_returns_finite : Forall finite (fillna f0 (Strategy_Returns df)).
Proof.
  pose proof (DataFrame_wf _ _ HDF) as Hwf.
  apply Forall_lookup. intros t x. rewrite fillna_lookup.
  destruct (Strategy_Returns df !! t) as [y|] eqn:Ey; [|done].
  simpl. intros [= <-]. apply lookup_lt_Some in Ey as Ht.
  rewrite length_Strategy_Returns in Ht by done.
  destruct t as [|j].
  - rewrite Strategy_Returns_lookup_0 in Ey by done. by injection Ey as <-.
  - apply Strategy_Returns_finite in Ey.
    by rewrite (finite_not_nan _ Ey).
Qed.

Lemma equity_finite : Forall finite (equity_of (cumulative_returns df)).
Proof.
  unfold equity_of, cumulative_returns, cumulative, cumprod.
  apply Forall_fmap. eapply Forall_impl.
  - apply cumprod_from_finite; [done|].
    apply Forall_fmap. eapply Forall_impl; [apply net_returns_finite|].
    intros x Hx. by apply finite_fadd.
  - intros x Hx. by apply finite_fmul.
Qed.

Lemma equity_first_positive :
  0 < len df →
  ∃ e0, equity_of (cumulative_returns df) !! 0 = Some e0
        ∧ fltb f0 e0 = true.
Proof.
  pose proof (DataFrame_wf _ _ HDF) as Hwf. intros Hn.
  exists (fmul initial_capital (fmul f1 (fadd f1 f0))). split; [|done].
  unfold equity_of, cumulative_returns.
  rewrite list_lookup_fmap, cumulative_lookup
    by (by rewrite length_Strategy_Returns).
  assert (H0 : fillna f0 (Strategy_Returns df) !! 0 = Some f0)
    by (by rewrite fillna_lookup, Strategy_Returns_lookup_0).
  by rewrite (take_S_r _ _ _ H0).
Qed.
End finite_table.

(** ** Drawdown *)

Lemma drawdown_value (a b : Qc) :
  b ≠ 0%Qc →
  fmul (fsub (fdiv (Fin a) (Fin b)) f1) f100
  = Fin ((a / b + - 1) * Qc_of_Z 100)%Qc.
Proof. intros Hb. simpl. by rewrite Qceqb_false. Qed.

Lemma drawdown_nonpos (a b : Qc) :
  (a ≤ b)%Qc → (0 < b)%Qc → ((a / b + - 1) * Qc_of_Z 100 ≤ 0)%Qc.
Proof.
  intros Hab Hb.
  assert (Hb0 : b ≠ 0%Qc) by (intros ->; by apply (Qclt_not_eq 0 0)).
  assert (H1 : (a / b ≤ 1)%Qc).
  { apply (Qcmult_lt_0_le_reg_r _ _ b Hb).
    unfold Qcdiv. by rewrite <-Qcmult_assoc, Qcmult_inv_l, Qcmult_1_r,
      Qcmult_1_l. }
  assert (H2 : (a / b + - 1 ≤ 0)%Qc).
  { rewrite <-(Qcplus_opp_r 1). by apply Qcplus_le_mono_r. }
  rewrite <-(Qcmult_0_l (Qc_of_Z 100)).
  by apply Qcmult_le_compat_r.
Qed.

Lemma drawdown_at_peak (a : Qc) :
  a ≠ 0%Qc → fmul (fsub (fdiv (Fin a) (Fin a)) f1) f100 = f0.
Proof.
  intros Ha. rewrite drawdown_value by done. unfold f0. f_equal.
  unfold Qcdiv. rewrite Qcmult_inv_r by done. ring.
Qed.


Lemma drawdown_of_lookup (equity : list float64) (t : nat) :
  drawdown_of equity !! t =
    (e ← equity !! t; p ← expanding_max equity !! t;
     Some (fmul (fsub (fdiv e p) f1) f100)).
Proof. unfold drawdown_of. apply lookup_zip_with. Qed.

Lemma length_drawdown_of (equity : list float64) :
  length (drawdown_of equity) = length equity.
Proof.
  unfold drawdown_of. rewrite length_zip_with, length_expanding_max. lia.
Qed.

Section drawdown.
Context (equity : list float64) (e0 : float64).
Context (Hfin : Forall finite equity).
Context (He0 : equity !! 0 = Some e0) (Hpos : fltb f0 e0 = true).

(** The peak is a positive number at least as large as the equity. *)
Lemma peak_dominates t e p :
  equity !! t = Some e → expanding_max equity !! t = Some p →
  ∃ a b, e = Fin a ∧ p = Fin b ∧ (a ≤ b)%Qc ∧ (0 < b)%Qc.
Proof.
  intros He Hp.
  destruct (expanding_max_spec _ _ _ Hfin Hp) as (Hfp & Hall & _).
  pose proof (Hall t e (le_n _) He) as Hle.
  pose proof (Hall 0 e0 (Nat.le_0_l _) He0) as Hle0.
  apply (Forall_lookup_1 _ _ _ _ Hfin) in He as [a ->]%finite_Fin.
  apply (Forall_lookup_1 _ _ _ _ Hfin) in He0 as [a0 ->]%finite_Fin.
  apply finite_Fin in Hfp as [b ->].
  apply fleb_Fin in Hle, Hle0. apply Qcltb_lt in Hpos.
  exists a, b. split_and!; [done..|].
  by apply (Qclt_le_trans _ a0).
Qed.

Lemma drawdown_nonpositive t d :
  drawdown_of equity !! t = Some d → finite d ∧ fleb d f0 = true.
Proof.
  rewrite drawdown_of_lookup. intros Hd.
  destruct (equity !! t) as [e|] eqn:He; [|done].
  destruct (expanding_max equity !! t) as [p|] eqn:Hp; [|done].
  simpl in Hd. injection Hd as <-.
  destruct (peak_dominates t e p He Hp) as (a & b & -> & -> & Hab & Hb).
  assert (Hb0 : b ≠ 0%Qc) by (intros ->; by apply (Qclt_not_eq 0 0)).
  rewrite drawdown_value by done. split; [done|].
  by apply fleb_Fin, drawdown_nonpos.
Qed.

Lemma drawdown_zero_at_running_max t e :
  equity !! t = Some e →
  (∀ j e', j ≤ t → equity !! j = Some e' → fleb e' e = true) →
  drawdown_of equity !! t = Some f0.
Proof.
  intros He Hmax. rewrite drawdown_of_lookup, He.
  destruct (lookup_lt_is_Some_2 (expanding_max equity) t) as [p Hp].
  { rewrite length_expanding_max. by eapply lookup_lt_Some. }
  rewrite Hp. simpl.
  destruct (expanding_max_spec _ _ _ Hfin Hp) as (_ & _ & j & Hj & Hpj).
  pose proof (Hmax j p Hj Hpj) as Hpe.
  destruct (peak_dominates t e p He Hp) as (a & b & -> & -> & Hab & Hb).
  apply fleb_Fin in Hpe.
  assert (a = b) as -> by (by apply Qcle_antisym).
  f_equal. apply drawdown_at_peak.
  intros ->. by apply (Qclt_not_eq 0 0).
Qed.
End drawdown.

(** The order facts need the closes to be nonzero.  After a close of zero
    the period return is infinite; held long, it makes the equity and its
    peak infinite, and the drawdown of that period is missing: neither
    zero nor at most zero, although the equity is at its running
    maximum. *)
Lemma drawdown_zero_close_example :
  ∃ m, run_backtest zero_close_input = Ok m
       ∧ BacktestMetrics.returns m = [f0; f0; PInf]
       ∧ BacktestMetrics.equity_curve m
         = [of_Z 1000000; of_Z 1000000; PInf]
       ∧ BacktestMetrics.drawdown_curve m = [f0; f0; NaN]
       ∧ fleb NaN f0 = false
       ∧ BacktestMetrics.max_drawdown m = f0.
Proof.
  eexists. split; [vm_compute; reflexivity|]. split_and!; float_eq.
Qed.



(** ** Inputs on which the engine returns *)

Lemma nonneg_finite (x : float64) : nonneg x → finite x.
Proof. by intros (q & -> & _). Qed.

Lemma nonneg_fmul (x y : float64) : nonneg x → nonneg y → nonneg (fmul x y).
Proof.
  intros (a & -> & Ha) (b & -> & Hb). exists (a * b)%Qc. split; [done|].
  rewrite <-(Qcmult_0_l b). by apply Qcmult_le_compat_r.
Qed.

Lemma cumprod_from_nonneg (l : list float64) : ∀ acc,
  nonneg acc → Forall nonneg l → Forall nonneg (cumprod_from acc l).
Proof.
  induction l as [|x l IH]; intros acc Hacc Hl; simpl; [constructor|].
  apply Forall_cons in Hl as [Hx Hl].
  rewrite (finite_not_nan x) by (by apply nonneg_finite).
  constructor; [by apply nonneg_fmul|]. apply IH; [by apply nonneg_fmul|done].
Qed.

Lemma Qcdiv_mult_cancel (c c' : Qc) : c' ≠ 0%Qc → (c / c' * c')%Qc = c.
Proof.
  intros H. unfold Qcdiv.
  by rewrite <-Qcmult_assoc, Qcmult_inv_l, Qcmult_1_r.
Qed.

Lemma Qcle_div (x c c' : Qc) :
  (0 < c')%Qc → (x * c' ≤ c)%Qc → (x ≤ c / c')%Qc.
Proof.
  intros Hc' H. apply (Qcmult_lt_0_le_reg_r _ _ c' Hc').
  rewrite Qcdiv_mult_cancel; [done|].
  intros ->. by apply (Qclt_not_eq 0 0).
Qed.

Lemma of_Z_0 : of_Z 0 = f0.
Proof. float_eq. Qed.

Lemma real_power_nonneg (x : float64) (days : nat) :
  nonneg x → real_power (fdiv x initial_capital) days = true.
Proof.
  intros (q & -> & Hq). unfold initial_capital, of_Z. cbn [fdiv].
  rewrite Qceqb_false by done. cbn [real_power].
  assert (H : (0 ≤ q / Qc_of_Z 1000000)%Qc).
  { apply Qcle_div; [done|]. by rewrite Qcmult_0_l. }
  destruct (Qcltb (q / Qc_of_Z 1000000) 0) eqn:E; [|done].
  apply Qcltb_lt in E. by apply Qclt_not_le in E.
Qed.

Section contract.
Context (data : StockData) (df : frame).
Context (HDF : DataFrame data = Ok df) (Hcontract : price_contract data).

Lemma Position_binary t p : Position df !! t = Some p → p = f0 ∨ p = f1.
Proof.
  pose proof (DataFrame_wf _ _ HDF) as Hwf.
  intros Hp. apply lookup_lt_Some in Hp as Ht.
  rewrite length_Position in Ht by done. destruct t as [|j].
  - rewrite Position_lookup_0 in Hp by done. left. by injection Hp.
  - rewrite Position_lookup_S in Hp by done.
    destruct (Target df !! j) as [z|] eqn:Ez; [|done].
    injection Hp as <-.
    destruct (Target_binary df j z Ez) as [-> | ->];
      [left; apply of_Z_0|right; apply of_Z_1].
Qed.

Lemma Returns_contract t r :
  Returns df !! S t = Some r →
  ∃ c c', (0 < c')%Qc ∧ (Q2Qc (2 # 1000) * c' ≤ c)%Qc ∧ (0 < c)%Qc
          ∧ r = Fin (c / c' + - 1)%Qc.
Proof.
  destruct (DataFrame_Ok_inv _ _ HDF) as (_ & _ & Hc & _).
  destruct Hcontract as [Hpos Hfall].
  rewrite Returns_lookup_S, Hc, !list_lookup_fmap.
  destruct (closes data !! S t) as [c|] eqn:Ec; [|done].
  destruct (closes data !! t) as [c'|] eqn:Ec'; [|done].
  pose proof (Forall_lookup_1 _ _ _ _ Hpos Ec') as Hc'.
  pose proof (Forall_lookup_1 _ _ _ _ Hpos Ec) as Hc0.
  simpl in Hc', Hc0.
  assert (Hne : c' ≠ 0%Qc) by (intros ->; by apply (Qclt_not_eq 0 0)).
  simpl. intros [= <-]. exists c, c'. split_and!; [done|by eapply Hfall|done|].
  by rewrite Qceqb_false.
Qed.

Lemma net_factor_nonneg :
  Forall nonneg (fadd f1 <$> fillna f0 (Strategy_Returns df)).
Proof.
  pose proof (DataFrame_wf _ _ HDF) as Hwf.
  assert (H10 : nonneg (fadd f1 f0)) by (by eexists).
  apply Forall_fmap, Forall_lookup. intros t x. rewrite fillna_lookup.
  destruct (Strategy_Returns df !! t) as [y|] eqn:Ey; [|done].
  simpl. intros [= <-]. apply lookup_lt_Some in Ey as Ht.
  rewrite length_Strategy_Returns in Ht by done.
  destruct t as [|j].
  { rewrite Strategy_Returns_lookup_0 in Ey by done. by injection Ey as <-. }
  rewrite Strategy_Returns_lookup, Position_Change_lookup_S in Ey.
  destruct (Position df !! S j) as [p|] eqn:Ep; [|done].
  destruct (Returns df !! S j) as [r|] eqn:Er; [|done].
  destruct (Position df !! j) as [p'|] eqn:Ep'; [|done].
  cbn [mbind option_bind fmap option_fmap option_map] in Ey.
  injection Ey as <-.
  apply Returns_contract in Er as (c & c' & Hc' & Hfall & Hc & ->).
  assert (Hratio : (0 ≤ c / c')%Qc).
  { apply Qcle_div; [done|]. rewrite Qcmult_0_l. by apply Qclt_le_weak. }
  destruct (Position_binary _ _ Ep) as [-> | ->],
           (Position_binary _ _ Ep') as [-> | ->].
  - replace (fabs (fsub f0 f0)) with f0 by float_eq.
    rewrite fmul_0_commission, fsub_0_r.
    unfold f0 at 1 2. cbn [fmul]. rewrite Qcmult_0_l. exact H10.
  - replace (fabs (fsub f0 f1)) with f1 by float_eq.
    rewrite fmul_1_l. unfold f0 at 1. cbn [fmul]. rewrite Qcmult_0_l.
    by eexists.
  - replace (fabs (fsub f1 f0)) with f1 by float_eq.
    rewrite !fmul_1_l. eexists. split; [reflexivity|].
    replace (1 + (c / c' + - 1 + - Q2Qc (2 # 1000)))%Qc
      with (c / c' + - Q2Qc (2 # 1000))%Qc by ring.
    apply (proj1 (Qcle_minus_iff (Q2Qc (2 # 1000)) (c / c'))).
    by apply Qcle_div.
  - replace (fabs (fsub f1 f1)) with f0 by float_eq.
    rewrite fmul_0_commission, fsub_0_r, fmul_1_l.
    eexists. split; [reflexivity|].
    by replace (1 + (c / c' + - 1))%Qc with (c / c')%Qc by ring.
Qed.

Lemma market_factor_nonneg : Forall nonneg (fadd f1 <$> market_returns df).
Proof.
  pose proof (DataFrame_wf _ _ HDF) as Hwf.
  apply Forall_fmap, Forall_lookup. intros t x. unfold market_returns.
  rewrite fillna_lookup.
  destruct (Returns df !! t) as [r|] eqn:Er; [|done].
  simpl. intros [= <-]. apply lookup_lt_Some in Er as Ht.
  rewrite length_Returns in Ht by done.
  destruct t as [|j].
  { rewrite Returns_lookup_0 in Er by done. injection Er as <-. by eexists. }
  apply Returns_contract in Er as (c & c' & Hc' & Hfall & Hc & ->).
  eexists. split; [reflexivity|].
  replace (1 + (c / c' + - 1))%Qc with (c / c')%Qc by ring.
  apply Qcle_div; [done|]. rewrite Qcmult_0_l. by apply Qclt_le_weak.
Qed.

Lemma equity_nonneg : Forall nonneg (equity_of (cumulative_returns df)).
Proof.
  assert (Hcap : nonneg initial_capital) by (by eexists).
  assert (H1 : nonneg f1) by (by eexists).
  unfold equity_of, cumulative_returns, cumulative, cumprod.
  apply Forall_fmap. eapply Forall_impl.
  - apply cumprod_from_nonneg; [done|apply net_factor_nonneg].
  - intros x Hx. by apply nonneg_fmul.
Qed.

Lemma market_equity_nonneg : Forall nonneg (equity_of (market_cumulative df)).
Proof.
  assert (Hcap : nonneg initial_capital) by (by eexists).
  assert (H1 : nonneg f1) by (by eexists).
  unfold equity_of, market_cumulative, cumprod.
  apply Forall_fmap. eapply Forall_impl.
  - apply cumprod_from_nonneg; [done|apply market_factor_nonneg].
  - intros x Hx. by apply nonneg_fmul.
Qed.
End contract.

(** Under the price contract both annualised returns are real numbers. *)
Lemma price_contract_annualizable (data : StockData) :
  price_contract data → annualizable data = true.
Proof.
  intros Hcontract. unfold annualizable.
  destruct (DataFrame data) as [df|] eqn:HDF; [|done].
  destruct (last (equity_of (cumulative_returns df))) as [fe|] eqn:Hfe;
    [|done].
  destruct (last (equity_of (market_cumulative df))) as [me|] eqn:Hme;
    [|done].
  rewrite last_lookup in Hfe, Hme.
  apply (Forall_lookup_1 _ _ _ _ (equity_nonneg data df HDF Hcontract)) in Hfe.
  apply (Forall_lookup_1 _ _ _ _ (market_equity_nonneg data df HDF Hcontract))
    in Hme.
  by rewrite !real_power_nonneg.
Qed.

(** On every aligned, non-empty input that meets the price contract the
    engine returns a report. *)
Lemma run_backtest_returns (data : StockData) :
  aligned data → dates data ≠ [] → price_contract data →
  ∃ m, run_backtest data = Ok m.
Proof.
  intros Hal Hne Hcontract.
  destruct (run_backtest_Ok data Hal Hne
              (price_contract_annualizable data Hcontract))
    as (df & s & m & _ & _ & Hrun & _).
  by exists m.
Qed.

(** ** The win-rate denominator in general *)

Lemma fillna_finite (v : float64) (l : list float64) :
  Forall finite l → fillna v l = l.
Proof.
  induction 1 as [|x l Hx _ IH]; [done|].
  unfold fillna in *. rewrite fmap_cons, IH.
  by rewrite (finite_not_nan x).
Qed.

(** On every non-empty input with nonzero closes the table's net-return
    column is a missing first entry followed by numbers; the engine counts
    that first entry among the nonzero returns, so its denominator is one
    more than the count taken after the missing value is set to zero.  The
    count of winning periods is the same either way. *)
Lemma win_rate_denominator (data : StockData) (df : frame) :
  DataFrame data = Ok df → dates data ≠ [] →
  Forall (λ c, c ≠ 0%Qc) (closes data) →
  count_where (λ x, fneb x f0) (Strategy_Returns df)
  = S (count_where (λ x, fneb x f0) (fillna f0 (Strategy_Returns df)))
  ∧ count_where (λ x, fgtb x f0) (Strategy_Returns df)
    = count_where (λ x, fgtb x f0) (fillna f0 (Strategy_Returns df)).
Proof.
  intros HDF Hne Hclose.
  pose proof (DataFrame_wf _ _ HDF) as Hwf.
  destruct (DataFrame_Ok_inv _ _ HDF) as (_ & Hi & _).
  assert (Hpos : 0 < len df).
  { unfold len. rewrite Hi. destruct (dates data); [done|simpl; lia]. }
  pose proof (Strategy_Returns_lookup_0 df Hwf Hpos) as H0.
  assert (Hrest : ∀ t y, Strategy_Returns df !! S t = Some y → finite y)
    by (intros t y; by apply (Strategy_Returns_finite data df)).
  destruct (Strategy_Returns df) as [|x rest]; [done|].
  simpl in H0. injection H0 as ->.
  assert (Hfin : Forall finite rest).
  { apply Forall_lookup. intros t y Hy. by apply (Hrest t). }
  unfold fillna. rewrite fmap_cons. fold (fillna f0 rest).
  rewrite (fillna_finite _ _ Hfin). unfold count_where.
  rewrite !filter_cons. simpl. split; reflexivity.
Qed.

(** ** Equity under an always-long signal *)

Lemma foldl_fmul_pull (l : list float64) : ∀ a b,
  finite a → finite b → Forall finite l →
  foldl fmul (fmul a b) l = fmul (foldl fmul a l) b.
Proof.
  induction l as [|x l IH]; intros a b Ha Hb Hl; simpl; [done|].
  apply Forall_cons in Hl as [Hx Hl].
  rewrite <-IH by (done || by apply finite_fmul). f_equal.
  apply finite_Fin in Ha as [qa ->]. apply finite_Fin in Hb as [qb ->].
  apply finite_Fin in Hx as [qx ->]. simpl. f_equal. ring.
Qed.

Lemma market_cumulative_lookup (df : frame) (t : nat) :
  t < length (Returns df) →
  market_cumulative df !! t
  = Some (fprod (fadd f1 <$> take (S t) (market_returns df))).
Proof. apply (cumulative_lookup (Returns df)). Qed.

(** With the signal long in every period the strategy equity is the
    buy-and-hold equity with the factor of period 1 lowered by the entry
    commission. *)
Lemma always_long_equity (data : StockData) (df : frame) :
  DataFrame data = Ok df →
  (∀ t, t < len df → Target df !! t = Some 1%Z) →
  Forall (λ c, c ≠ 0%Qc) (closes data) →
  ∀ t e me r,
    1 ≤ t →
    equity_of (cumulative_returns df) !! t = Some e →
    equity_of (market_cumulative df) !! t = Some me →
    Returns df !! 1 = Some r →
    fmul e (fadd f1 r) = fmul me (fadd f1 (fsub r commission)).
Proof.
  intros HDF Hlong Hclose t e me r Ht He Hme Hr.
  pose proof (DataFrame_wf _ _ HDF) as Hwf.
  apply lookup_lt_Some in He as Hlt.
  unfold cumulative_returns in Hlt.
  rewrite length_equity_of, length_cumulative, length_Strategy_Returns in Hlt
    by done.
  assert (Hrf : finite r) by (by apply (Returns_finite data df HDF Hclose 0)).
  (* the two return series agree except in period 1 *)
  pose proof (net_returns_finite data df HDF Hclose) as Hnf.
  assert (Hn0 : fillna f0 (Strategy_Returns df) !! 0 = Some f0)
    by (rewrite fillna_lookup, Strategy_Returns_lookup_0; [done..|lia]).
  assert (Hm0 : market_returns df !! 0 = Some f0).
  { unfold market_returns.
    rewrite fillna_lookup, Returns_lookup_0; [done..|lia]. }
  assert (Hsr1 : Strategy_Returns df !! 1 = Some (fsub r commission)).
  { rewrite Strategy_Returns_lookup, Position_Change_lookup_S, Hr.
    rewrite Position_lookup_0, (Position_lookup_S df Hwf 0), Hlong
      by (done || lia).
    cbn [mbind option_bind fmap option_fmap option_map].
    by rewrite fabs_one_minus_zero, !of_Z_1, !fmul_1_l. }
  assert (Hn1 : fillna f0 (Strategy_Returns df) !! 1
                = Some (fsub r commission)).
  { rewrite fillna_lookup, Hsr1. simpl.
    by rewrite (finite_not_nan (fsub r commission)) by (by apply finite_fsub). }
  assert (Hm1 : market_returns df !! 1 = Some r).
  { unfold market_returns. rewrite fillna_lookup, Hr. simpl.
    by rewrite (finite_not_nan r). }
  assert (Hrest : ∀ i, 2 ≤ i →
            fillna f0 (Strategy_Returns df) !! i = market_returns df !! i).
  { intros [|[|i]] Hi; [lia..|]. unfold market_returns.
    rewrite !fillna_lookup. f_equal.
    rewrite Strategy_Returns_lookup, Position_Change_lookup_S.
    destruct (Returns df !! S (S i)) as [ri|] eqn:Eri.
    - apply lookup_lt_Some in Eri as Hi'.
      rewrite length_Returns in Hi' by done.
      rewrite !Position_lookup_S, !Hlong by (done || lia).
      cbn [mbind option_bind fmap option_fmap option_map].
      by rewrite fabs_one_minus_one, fmul_0_commission, fsub_0_r,
        of_Z_1, fmul_1_l.
    - by destruct (Position df !! S (S i)). }
  (* both equities as products *)
  unfold equity_of, cumulative_returns in He.
  rewrite list_lookup_fmap, cumulative_lookup in He
    by (by rewrite length_Strategy_Returns).
  unfold equity_of in Hme.
  rewrite list_lookup_fmap, market_cumulative_lookup in Hme
    by (by rewrite length_Returns).
  remember (fillna f0 (Strategy_Returns df)) as net eqn:Enet.
  remember (market_returns df) as mr eqn:Emr.
  clear Enet Emr.
  destruct net as [|n0 [|n1 nrest]]; [done..|].
  destruct mr as [|m0 [|m1 mrest]]; [done..|].
  simpl in Hn0, Hn1, Hm0, Hm1.
  injection Hn0 as ->. injection Hn1 as ->.
  injection Hm0 as ->. injection Hm1 as ->.
  assert (nrest = mrest) as ->.
  { apply list_eq. intros i. apply (Hrest (S (S i))). lia. }
  destruct t as [|t]; [lia|].
  cbn [take firstn fmap list_fmap] in He, Hme.
  unfold fprod in He, Hme. cbn [foldl option_fmap option_map] in He, Hme.
  apply Forall_cons in Hnf as [_ [_ Hnf]%Forall_cons].
  assert (Htl : Forall finite (fadd f1 <$> take t mrest)).
  { apply Forall_fmap. eapply Forall_impl.
    - by apply Forall_take.
    - intros x Hx. by apply finite_fadd. }
  assert (Hb : finite (fmul f1 (fadd f1 f0))) by done.
  rewrite (foldl_fmul_pull _ (fmul f1 (fadd f1 f0))
             (fadd f1 (fsub r commission))) in He
    by (done || by apply finite_fadd, finite_fsub).
  rewrite (foldl_fmul_pull _ (fmul f1 (fadd f1 f0)) (fadd f1 r)) in Hme
    by (done || by apply finite_fadd).
  assert (HK : finite (foldl fmul (fmul f1 (fadd f1 f0))
                         (fadd f1 <$> take t mrest))).
  { clear -Htl Hb. revert Htl Hb.
    generalize (fadd f1 <$> take t mrest), (fmul f1 (fadd f1 f0)).
    intros l. induction l as [|x l IH]; intros b Hl Hb; simpl; [done|].
    apply Forall_cons in Hl as [Hx Hl].
    apply IH; [done|by apply finite_fmul]. }
  apply finite_Fin in HK as [k Hk]. rewrite Hk in He, Hme.
  apply finite_Fin in Hrf as [qr ->].
  injection He as <-. injection Hme as <-.
  unfold f1, commission. cbn [fmul fadd fsub fneg]. f_equal. ring.
Qed.

(** C9, amended.  When the signal is long in every period, the position is
    flat in period 0 and long from period 1 on.  The net strategy return
    is 0 in period 0, as the period return is; in period 1 it is the
    period return less one entry commission; from period 2 on it is the
    period return, with no further commission.  So, when no close is
    zero, the strategy equity of every period [t >= 1] is the buy-and-hold
    equity with the factor [1 + PeriodReturn[1]] replaced by
    [1 + PeriodReturn[1] - commission]. *)
Theorem always_long_returns (data : StockData) (df : frame) :
  DataFrame data = Ok df →
  (∀ t, t < len df → Target df !! t = Some 1%Z) →
  let net := fillna f0 (Strategy_Returns df) in
  (0 < len df →
     Position df !! 0 = Some f0 ∧ net !! 0 = Some f0
     ∧ market_returns df !! 0 = Some f0)
  ∧ (∀ t, 1 ≤ t < len df → Position df !! t = Some (of_Z 1))
  ∧ (∀ r, Returns df !! 1 = Some r →
          Strategy_Returns df !! 1 = Some (fsub r commission))
  ∧ (∀ t, 2 ≤ t →
       Strategy_Returns df !! t = Returns df !! t
       ∧ Commission_Cost df !! t = (λ _, f0) <$> Returns df !! t
       ∧ net !! t = market_returns df !! t)
  ∧ (Forall (λ c, c ≠ 0%Qc) (closes data) →
     ∀ t e me r,
       1 ≤ t →
       equity_of (cumulative_returns df) !! t = Some e →
       equity_of (market_cumulative df) !! t = Some me →
       Returns df !! 1 = Some r →
       fmul e (fadd f1 r) = fmul me (fadd f1 (fsub r commission))).
Proof.
  intros HDF Hlong net.
  pose proof (DataFrame_wf _ _ HDF) as Hwf.
  assert (HP : ∀ t, 1 ≤ t < len df → Position df !! t = Some (of_Z 1)).
  { intros [|j] Hj; [lia|].
    rewrite Position_lookup_S, Hlong by (done || lia). done. }
  assert (HSR : ∀ t, 2 ≤ t → Strategy_Returns df !! t = Returns df !! t).
  { intros [|[|j]] Hj; [lia..|].
    rewrite Strategy_Returns_lookup, Position_Change_lookup_S.
    destruct (Returns df !! S (S j)) as [r|] eqn:Er.
    - apply lookup_lt_Some in Er. rewrite length_Returns in Er by done.
      rewrite !HP by lia. cbn [mbind option_bind fmap option_fmap option_map].
      by rewrite fabs_one_minus_one, fmul_0_commission, fsub_0_r,
        of_Z_1, fmul_1_l.
    - by destruct (Position df !! S (S j)). }
  split_and!.
  - intros Hn. split_and!.
    + by apply Position_lookup_0.
    + unfold net. by rewrite fillna_lookup, Strategy_Returns_lookup_0.
    + unfold market_returns. by rewrite fillna_lookup, Returns_lookup_0.
  - exact HP.
  - intros r Hr. apply lookup_lt_Some in Hr as Hlt.
    rewrite length_Returns in Hlt by done.
    rewrite Strategy_Returns_lookup, Position_Change_lookup_S, Hr.
    rewrite (HP 1), Position_lookup_0 by (done || lia).
    cbn [mbind option_bind fmap option_fmap option_map].
    by rewrite fabs_one_minus_zero, !of_Z_1, !fmul_1_l.
  - intros t Ht. split_and!.
    + by apply HSR.
    + destruct t as [|[|j]]; [lia..|].
      unfold Commission_Cost.
      rewrite list_lookup_fmap, Position_Change_lookup_S.
      destruct (Returns df !! S (S j)) as [r|] eqn:Er.
      * apply lookup_lt_Some in Er. rewrite length_Returns in Er by done.
        rewrite !HP by lia. cbn [mbind option_bind fmap option_fmap option_map].
        by rewrite fabs_one_minus_one, fmul_0_commission.
      * apply lookup_ge_None in Er. rewrite length_Returns in Er by done.
        rewrite (lookup_ge_None_2 (Position df) (S (S j))); [done|].
        rewrite length_Position by done. lia.
    + unfold net, market_returns. by rewrite !fillna_lookup, HSR.
  - intros Hclose. by apply (always_long_equity data df).
Qed.

Lemma always_long_returns_witness :
  DataFrame always_long_input = Ok always_long_df
  ∧ (∀ t, t < len always_long_df → Target always_long_df !! t = Some 1%Z)
  ∧ Position always_long_df !! 2 = Some (of_Z 1).
Proof.
  assert (HT : ∀ t, t < len always_long_df →
                    Target always_long_df !! t = Some 1%Z).
  { intros t Ht. change (len always_long_df) with 3 in Ht.
    destruct t as [|[|[|t]]]; [reflexivity..|lia]. }
  split; [reflexivity|]. split; [exact HT|].
  refine (proj1 (proj2 (always_long_returns always_long_input always_long_df
                          eq_refl HT)) 2 _).
  change (len always_long_df) with 3. lia.
Defined.

(** * Further properties of the engine *)

(** ** The report, field by field *)

(** A returned report is the record built from the table of the input, the
    last entries of the two equity curves and the state of the trade
    loop. *)
Lemma run_backtest_report (data : StockData) (m : BacktestMetrics.t) :
  run_backtest data = Ok m →
  ∃ df s fe me d0 dl,
    DataFrame data = Ok df
    ∧ last (equity_of (cumulative_returns df)) = Some fe
    ∧ last (equity_of (market_cumulative df)) = Some me
    ∧ trade_history df = Ok s
    ∧ index df !! 0 = Some d0 ∧ last (index df) = Some dl
    ∧ BacktestMetrics.final_equity m = fe
    ∧ BacktestMetrics.total_return m
      = fmul (fsub (fdiv fe initial_capital) f1) f100
    ∧ BacktestMetrics.market_total_return m
      = fmul (fsub (fdiv me initial_capital) f1) f100
    ∧ BacktestMetrics.market_max_drawdown m
      = series_min (drawdown_of (equity_of (market_cumulative df)))
    ∧ BacktestMetrics.market_equity m = equity_of (market_cumulative df)
    ∧ BacktestMetrics.equity_curve m = equity_of (cumulative_returns df)
    ∧ BacktestMetrics.drawdown_curve m
      = drawdown_of (equity_of (cumulative_returns df))
    ∧ BacktestMetrics.max_drawdown m
      = series_min (drawdown_of (equity_of (cumulative_returns df)))
    ∧ BacktestMetrics.returns m = fillna f0 (Strategy_Returns df)
    ∧ BacktestMetrics.win_rate m = win_rate_of (Strategy_Returns df)
    ∧ BacktestMetrics.dates m = dates data
    ∧ BacktestMetrics.volumes m = volumes data
    ∧ BacktestMetrics.prices m = closes data
    ∧ BacktestMetrics.data_points m = len df
    ∧ BacktestMetrics.date_range m = d0 +:+ " to " +:+ dl
    ∧ BacktestMetrics.trades m = trades s
    ∧ BacktestMetrics.total_trades m = length (trades s)
    ∧ BacktestMetrics.buy_signals m = buy_signals s
    ∧ BacktestMetrics.sell_signals m = sell_signals s.
Proof.
  unfold run_backtest. intros H.
  destruct (DataFrame data) as [df|] eqn:HDF; [|done].
  rewrite bind_Ok in H. unfold iloc_last, iloc in H.
  destruct (last (equity_of (cumulative_returns df))) as [fe|] eqn:Hfe;
    [|done].
  rewrite bind_Ok in H.
  destruct (last (equity_of (market_cumulative df))) as [me|] eqn:Hme;
    [|done].
  rewrite bind_Ok in H.
  destruct (trade_history df) as [s|] eqn:Hs; [|done]. rewrite bind_Ok in H.
  destruct (index df !! 0) as [d0|] eqn:Hd0; [|done]. rewrite bind_Ok in H.
  destruct (last (index df)) as [dl|] eqn:Hdl; [|done]. rewrite bind_Ok in H.
  destruct (float_of_power (fdiv fe initial_capital) (len df)); [|done].
  rewrite bind_Ok in H.
  destruct (float_of_power (fdiv me initial_capital) (len df)); [|done].
  rewrite bind_Ok in H. injection H as <-.
  exists df, s, fe, me, d0, dl. split_and!; (reflexivity || done).
Qed.

Lemma length_market_cumulative (df : frame) :
  frame_wf df → length (market_cumulative df) = len df.
Proof.
  intros Hwf. unfold market_cumulative, market_returns.
  by rewrite length_cumprod, length_fmap, length_fillna, length_Returns.
Qed.

Lemma length_cumulative_returns (df : frame) :
  frame_wf df → length (cumulative_returns df) = len df.
Proof.
  intros Hwf. unfold cumulative_returns.
  by rewrite length_cumulative, length_Strategy_Returns.
Qed.

Lemma frame_len (data : StockData) (df : frame) :
  DataFrame data = Ok df → len df = length (dates data).
Proof.
  intros HDF. destruct (DataFrame_Ok_inv _ _ HDF) as (_ & Hi & _).
  unfold len. by rewrite Hi.
Qed.



(** ** Long-only positions and the commission *)

(** X2.  The strategy is long-only and unleveraged: on every table the
    position of a period is 0 or 1.  After the first period the commission
    cost is 0 when the position equals the previous one and the commission
    rate when it differs, and the net return is the gross return less that
    cost. *)
Theorem position_long_only (data : StockData) (df : frame) :
  DataFrame data = Ok df →
  (∀ t p, Position df !! t = Some p → p = f0 ∨ p = f1)
  ∧ (∀ t p p', Position df !! S t = Some p → Position df !! t = Some p' →
       (p = p' → Commission_Cost df !! S t = Some f0)
       ∧ (p ≠ p' → Commission_Cost df !! S t = Some commission))
  ∧ (∀ t g c, Gross_Strategy_Returns df !! t = Some g →
       Commission_Cost df !! t = Some c →
       Strategy_Returns df !! t = Some (fsub g c)).
Proof.
  intros HDF. split_and!.
  - intros t p. by apply (Position_binary data df).
  - intros t p p' Hp Hp'.
    unfold Commission_Cost.
    rewrite list_lookup_fmap, Position_Change_lookup_S, Hp, Hp'.
    cbn [mbind option_bind fmap option_fmap option_map].
    destruct (Position_binary data df HDF _ _ Hp) as [-> | ->],
             (Position_binary data df HDF _ _ Hp') as [-> | ->];
      split; intros H; try done; float_eq.
  - intros t g c Hg Hc. unfold Strategy_Returns.
    by rewrite lookup_zip_with, Hg, Hc.
Qed.

Lemma position_long_only_witness :
  DataFrame scenario = Ok scenario_df
  ∧ Commission_Cost scenario_df !! 1 = Some commission.
Proof.
  split; [reflexivity|].
  refine (proj2 (proj1 (proj2 (position_long_only scenario scenario_df
                                 eq_refl)) 0 f1 f0 _ _) _).
  - float_eq.
  - reflexivity.
  - vm_compute. discriminate.
Defined.

(** ** The buy-and-hold benchmark *)

Lemma fprod_snoc (l : list float64) (x : float64) :
  fprod (l ++ [x]) = fmul (fprod l) x.
Proof. unfold fprod. by rewrite foldl_app. Qed.

Lemma Qc_nonzero_lookup (l : list Qc) (t : nat) (c : Qc) :
  Forall (λ c, c ≠ 0%Qc) l → l !! t = Some c → c ≠ 0%Qc.
Proof. intros Hl Hc. by apply (Forall_lookup_1 _ _ _ _ Hl Hc). Qed.

Lemma market_returns_lookup_S (data : StockData) (df : frame) t c c' :
  DataFrame data = Ok df → c ≠ 0%Qc →
  closes data !! t = Some c → closes data !! S t = Some c' →
  market_returns df !! S t = Some (Fin (c' / c + - 1)%Qc).
Proof.
  intros HDF Hc0 Hc Hc'.
  destruct (DataFrame_Ok_inv _ _ HDF) as (_ & _ & HC & _).
  unfold market_returns.
  rewrite fillna_lookup, Returns_lookup_S, HC, !list_lookup_fmap, Hc, Hc'.
  simpl. by rewrite Qceqb_false.
Qed.

(** The running product of the period returns telescopes. *)
Lemma market_product (data : StockData) (df : frame) :
  DataFrame data = Ok df → Forall (λ c, c ≠ 0%Qc) (closes data) →
  ∀ t c0 ct, closes data !! 0 = Some c0 → closes data !! t = Some ct →
  fprod (fadd f1 <$> take (S t) (market_returns df)) = Fin (ct / c0)%Qc.
Proof.
  intros HDF Hnz. pose proof (DataFrame_wf _ _ HDF) as Hwf.
  destruct (DataFrame_Ok_inv _ _ HDF) as ((Hal & _) & Hi & _).
  induction t as [|t IH]; intros c0 ct Hc0 Hct.
  - rewrite Hc0 in Hct. injection Hct as <-.
    pose proof (Qc_nonzero_lookup _ _ _ Hnz Hc0) as Hne.
    assert (Hm0 : market_returns df !! 0 = Some f0).
    { unfold market_returns. rewrite fillna_lookup, Returns_lookup_0; [done..|].
      apply lookup_lt_Some in Hc0. unfold len. rewrite Hi. lia. }
    rewrite (take_S_r _ _ _ Hm0). unfold fprod, f1, f0. simpl. f_equal.
    by field.
  - destruct (lookup_lt_is_Some_2 (closes data) t) as [c Hc].
    { apply lookup_lt_Some in Hct. lia. }
    pose proof (Qc_nonzero_lookup _ _ _ Hnz Hc0) as Hne0.
    pose proof (Qc_nonzero_lookup _ _ _ Hnz Hc) as Hne.
    rewrite (take_S_r _ _ _ (market_returns_lookup_S _ _ _ _ _ HDF Hne Hc Hct)).
    rewrite fmap_app. cbn [fmap list_fmap].
    rewrite fprod_snoc, (IH c0 c Hc0 Hc).
    unfold f1. simpl. f_equal. by field.
Qed.

(** X3.  When no close is zero the benchmark is plain buy-and-hold: its
    equity in period [t] is the initial capital times [Close[t] / Close[0]],
    and the market total return is [(Close[last] / Close[0] - 1) * 100]. *)
Theorem market_equity_buy_and_hold (data : StockData)
    (m : BacktestMetrics.t) :
  run_backtest data = Ok m →
  Forall (λ c, c ≠ 0%Qc) (closes data) →
  ∃ c0 cl,
    closes data !! 0 = Some c0 ∧ last (closes data) = Some cl
    ∧ (∀ t ct, closes data !! t = Some ct →
         BacktestMetrics.market_equity m !! t
         = Some (fmul initial_capital (Fin (ct / c0)%Qc)))
    ∧ BacktestMetrics.market_total_return m
      = Fin ((cl / c0 + - 1) * Qc_of_Z 100)%Qc.
Proof.
  intros Hrun Hnz.
  destruct (run_backtest_Ok_inv _ _ Hrun) as ((Hc & _) & Hne & _).
  destruct (run_backtest_report _ _ Hrun)
    as (df & s & fe & me & d0 & dl & HDF & _ & Hme & _ & _ & _ & _ & _ & HMT
        & _ & HM & _).
  pose proof (DataFrame_wf _ _ HDF) as Hwf.
  pose proof (frame_len _ _ HDF) as Hlen.
  assert (Hpos : 0 < length (closes data)).
  { rewrite Hc. destruct (dates data); [done|simpl; lia]. }
  destruct (lookup_lt_is_Some_2 (closes data) 0 Hpos) as [c0 Hc0].
  destruct (lookup_lt_is_Some_2 (closes data) (pred (length (closes data))))
    as [cl Hcl]; [lia|].
  assert (HMt : ∀ t ct, closes data !! t = Some ct →
            equity_of (market_cumulative df) !! t
            = Some (fmul initial_capital (Fin (ct / c0)%Qc))).
  { intros t ct Hct. unfold equity_of.
    rewrite list_lookup_fmap, market_cumulative_lookup.
    - by rewrite (market_product data df HDF Hnz t c0 ct).
    - rewrite length_Returns by done. apply lookup_lt_Some in Hct. lia. }
  exists c0, cl. rewrite last_lookup. split_and!; [done..| |].
  - intros t ct Hct. rewrite HM. by apply HMt.
  - rewrite HMT. rewrite last_lookup, length_equity_of,
      length_market_cumulative in Hme by done.
    rewrite Hlen, <-Hc, (HMt _ _ Hcl) in Hme. injection Hme as <-.
    pose proof (Qc_nonzero_lookup _ _ _ Hnz Hc0) as Hne0.
    unfold initial_capital, of_Z, f1, f100. cbn [fmul fdiv].
    rewrite Qceqb_false by done. cbn [fsub fadd fneg fmul]. f_equal.
    field. split; [done|]. done.
Qed.

Lemma market_equity_buy_and_hold_witness :
  ∃ m, run_backtest scenario = Ok m
       ∧ BacktestMetrics.market_total_return m = Fin (Q2Qc (-10 # 1)).
Proof.
  eexists. split; [vm_compute; reflexivity|].
  match goal with
  | |- BacktestMetrics.market_total_return ?m = _ =>
      destruct (market_equity_buy_and_hold scenario m)
        as (c0 & cl & H0 & Hl & _ & HT)
  end.
  - vm_compute. reflexivity.
  - repeat constructor; discriminate.
  - injection H0 as <-. injection Hl as <-. rewrite HT. float_eq.
Defined.

(** ** Bounds of the win rate *)

Lemma count_where_le (p q : float64 → bool) (l : list float64) :
  (∀ x, p x = true → q x = true) → count_where p l ≤ count_where q l.
Proof.
  intros Hpq. unfold count_where.
  induction l as [|x l IH]; [done|]. rewrite !filter_cons.
  destruct (decide (p x = true)) as [Hp|Hp].
  - rewrite decide_True by (by apply Hpq). simpl. lia.
  - destruct (decide (q x = true)); simpl; lia.
Qed.

Lemma fgtb_fneb (x : float64) : fgtb x f0 = true → fneb x f0 = true.
Proof.
  destruct x as [| | |q]; try done. unfold fgtb, fneb, f0. simpl.
  intros H%Qcltb_lt. rewrite Qceqb_false; [done|].
  intros ->. by apply (Qclt_not_eq 0 0).
Qed.

Lemma win_rate_of_bounds (series : list float64) :
  ∃ q, win_rate_of series = Fin q ∧ (0 ≤ q)%Qc ∧ (q ≤ Qc_of_Z 100)%Qc.
Proof.
  unfold win_rate_of.
  pose proof (count_where_le _ _ series fgtb_fneb) as Hle.
  set (w := count_where (λ x, fgtb x f0) series) in *.
  set (t := count_where (λ x, fneb x f0) series) in *.
  destruct (bool_decide (0 < t)) eqn:Ht.
  - apply bool_decide_eq_true in Ht.
    assert (Htq : (0 < Qc_of_Z (Z.of_nat t))%Qc).
    { rewrite <-Z2Qc_inj_0. apply (proj1 (Z2Qc_inj_lt 0 (Z.of_nat t))). lia. }
    assert (Hne : Qc_of_Z (Z.of_nat t) ≠ 0%Qc).
    { intros H. rewrite H in Htq. by apply (Qclt_not_eq 0 0). }
    assert (Hwq : (0 ≤ Qc_of_Z (Z.of_nat w))%Qc).
    { rewrite <-Z2Qc_inj_0. apply (proj1 (Z2Qc_inj_le 0 (Z.of_nat w))). lia. }
    assert (Hwt : (Qc_of_Z (Z.of_nat w) ≤ Qc_of_Z (Z.of_nat t))%Qc).
    { apply (proj1 (Z2Qc_inj_le (Z.of_nat w) (Z.of_nat t))). lia. }
    assert (H100 : (0 ≤ Qc_of_Z 100)%Qc).
    { rewrite <-Z2Qc_inj_0. by apply (proj1 (Z2Qc_inj_le 0 100)). }
    unfold of_Z, f100. cbn [fdiv]. rewrite Qceqb_false by done.
    cbn [fmul]. eexists. split; [reflexivity|]. split.
    + rewrite <-(Qcmult_0_l (Qc_of_Z 100)).
      apply Qcmult_le_compat_r; [|done].
      apply Qcle_div; [done|]. by rewrite Qcmult_0_l.
    + rewrite <-(Qcmult_1_l (Qc_of_Z 100)) at 2.
      apply Qcmult_le_compat_r; [|done].
      apply (Qcmult_lt_0_le_reg_r _ _ _ Htq).
      by rewrite Qcdiv_mult_cancel, Qcmult_1_l.
  - exists 0%Qc. split; [done|]. split; [done|].
    rewrite <-Z2Qc_inj_0. by apply (proj1 (Z2Qc_inj_le 0 100)).
Qed.

(** X4.  The reported win rate is a percentage: a number between 0 and
    100, whatever the input (missing and infinite returns included). *)
Theorem win_rate_is_percentage (data : StockData) (m : BacktestMetrics.t) :
  run_backtest data = Ok m →
  ∃ q, BacktestMetrics.win_rate m = Fin q
       ∧ (0 ≤ q)%Qc ∧ (q ≤ Qc_of_Z 100)%Qc.
Proof.
  intros Hrun.
  destruct (run_backtest_report _ _ Hrun)
    as (df & s & fe & me & d0 & dl & _ & _ & _ & _ & _ & _ & _ & _ & _ & _ & _
        & _ & _ & _ & _ & HW & _).
  rewrite HW. apply win_rate_of_bounds.
Qed.

Lemma win_rate_is_percentage_witness :
  ∃ m q, run_backtest zero_close_input = Ok m
         ∧ BacktestMetrics.win_rate m = Fin q ∧ (q ≤ Qc_of_Z 100)%Qc.
Proof.
  eexists.
  match goal with
  | |- ∃ q, run_backtest _ = Ok ?m ∧ _ =>
      assert (Hrun : run_backtest zero_close_input = Ok m)
        by (vm_compute; reflexivity);
      destruct (win_rate_is_percentage zero_close_input m Hrun)
        as (q & Hq & _ & Hle)
  end.
  exists q. split; [exact Hrun|]. split; [exact Hq|exact Hle].
Defined.

(** ** Ledger completeness *)

Lemma ledger_scan_length (zs : list Z) :
  Forall (λ z, z = 0%Z ∨ z = 1%Z) zs →
  ∀ i, length (ledger_scan None i zs) = rising_edges 0 zs
       ∧ ∀ e, length (ledger_scan (Some e) i zs) = S (rising_edges 1 zs).
Proof.
  induction 1 as [|z zs Hz _ IH]; intros i; [done|].
  destruct (IH (S i)) as [IHflat IHopen].
  destruct Hz as [-> | ->]; simpl; split; try intros e;
    rewrite ?IHflat, ?IHopen; done.
Qed.

(** X5.  Ledger completeness: the number of trades of a report is the
    number of periods in which [Target] turns from 0 (or the start of the
    series) to 1, and the report lists one buy index, one sell index and
    one trade record for each. *)
Theorem trades_count_entries (data : StockData) (m : BacktestMetrics.t) :
  run_backtest data = Ok m →
  ∃ df, DataFrame data = Ok df
        ∧ BacktestMetrics.total_trades m = rising_edges 0 (Target df)
        ∧ length (BacktestMetrics.trades m) = BacktestMetrics.total_trades m
        ∧ length (BacktestMetrics.buy_signals m)
          = BacktestMetrics.total_trades m
        ∧ length (BacktestMetrics.sell_signals m)
          = BacktestMetrics.total_trades m.
Proof.
  intros Hrun.
  destruct (run_backtest_report _ _ Hrun)
    as (df & s & fe & me & d0 & dl & HDF & _ & _ & Hs & _ & _ & _ & _ & _ & _
        & _ & _ & _ & _ & _ & _ & _ & _ & _ & _ & _ & HT & HN & HB & HS).
  pose proof (DataFrame_wf _ _ HDF) as Hwf.
  destruct (trade_history_refines df Hwf) as (s' & Hs' & Hb & Hsl & HF).
  rewrite Hs in Hs'. injection Hs' as <-.
  assert (Hbin : Forall (λ z, z = 0%Z ∨ z = 1%Z) (Target df)).
  { apply Forall_lookup. intros t z. apply Target_binary. }
  destruct (ledger_scan_length _ Hbin 0) as [Hlen _].
  fold (spec_ledger (Target df)) in Hlen.
  apply Forall2_length in HF.
  exists df. rewrite HT, HN, HB, HS, Hb, Hsl, !length_fmap.
  split_and!; (done || lia).
Qed.

Lemma trades_count_entries_witness :
  ∃ m, run_backtest scenario = Ok m
       ∧ BacktestMetrics.total_trades m = rising_edges 0 [1; 1; 1; 0; 0]%Z.
Proof.
  eexists.
  match goal with
  | |- run_backtest _ = Ok ?m ∧ _ =>
      assert (Hrun : run_backtest scenario = Ok m)
        by (vm_compute; reflexivity);
      destruct (trades_count_entries scenario m Hrun) as (df & HDF & Ht & _)
  end.
  split; [exact Hrun|]. rewrite Ht.
  vm_compute in HDF. injection HDF as <-. vm_compute. reflexivity.
Defined.

(** ** When the annualised return is not a real number *)

Lemma real_power_false (x : float64) (days : nat) :
  real_power (fdiv x initial_capital) days = false →
  fltb x f0 = true ∧ 252 mod days ≠ 0.
Proof.
  destruct x as [| | |q]; try done.
  unfold initial_capital, of_Z. cbn [fdiv].
  rewrite Qceqb_false by done. cbn [real_power].
  intros [Hq Hd]%orb_false_elim. split.
  - apply negb_false_iff, Qcltb_lt in Hq. unfold f0. cbn [fltb].
    apply Qcltb_lt.
    assert (Hcap : (0 < Qc_of_Z 1000000)%Qc) by done.
    apply (Qcmult_lt_compat_r _ _ _ Hcap) in Hq.
    by rewrite Qcdiv_mult_cancel, Qcmult_0_l in Hq.
  - by apply Nat.eqb_neq in Hd.
Qed.



(** ** A signal that is never long *)

Lemma replicate_eq_lookup {A} (l : list A) (n : nat) (v : A) :
  length l = n → (∀ t x, l !! t = Some x → x = v) → l = replicate n v.
Proof.
  intros Hn Hl. symmetry. apply replicate_as_Forall_2; [done|].
  apply Forall_lookup. intros t x Hx. symmetry. by apply (Hl t).
Qed.

Lemma fmul_0_l (x : float64) : fmul f0 x = f0 ∨ fmul f0 x = NaN.
Proof.
  destruct x as [| | |q]; unfold f0; cbn [fmul]; auto.
  left. by rewrite Qcmult_0_l.
Qed.

Lemma cumprod_from_ones (n : nat) (a : Qc) :
  cumprod_from (Fin a) (replicate n (fadd f1 f0)) = replicate n (Fin a).
Proof.
  assert (H1 : fmul (Fin a) (fadd f1 f0) = Fin a).
  { unfold f1, f0. cbn [fadd fmul]. f_equal. ring. }
  induction n as [|n IH]; [done|]. cbn [replicate cumprod_from].
  change (is_nan (fadd f1 f0)) with false. cbn iota zeta.
  by rewrite H1, IH.
Qed.

Lemma expanding_max_from_const (n : nat) (a : Qc) :
  expanding_max_from (Fin a) (replicate n (Fin a)) = replicate n (Fin a).
Proof.
  induction n as [|n IH]; [done|]. simpl. unfold fmax. cbn [fltb].
  assert (Qcltb a a = false) as ->.
  { destruct (Qcltb a a) eqn:E; [|done].
    apply Qcltb_lt in E. by apply Qclt_not_eq in E. }
  by rewrite IH.
Qed.

Lemma expanding_max_const (n : nat) (a : Qc) :
  expanding_max (replicate n (Fin a)) = replicate n (Fin a).
Proof.
  destruct n as [|n]; [done|]. unfold expanding_max. simpl.
  by rewrite expanding_max_from_const.
Qed.

Lemma series_min_zeros (n : nat) : series_min (replicate (S n) f0) = f0.
Proof.
  unfold series_min. simpl.
  induction n as [|n IH]; [done|]. simpl. exact IH.
Qed.

Lemma count_where_none (p : float64 → bool) (l : list float64) :
  (∀ t x, l !! t = Some x → p x = false) → count_where p l = 0.
Proof.
  unfold count_where. induction l as [|x l IH]; intros H; [done|].
  rewrite filter_cons, decide_False.
  - apply IH. intros t y Hy. by apply (H (S t)).
  - rewrite (H 0 x eq_refl). done.
Qed.

Lemma win_rate_of_no_win (series : list float64) :
  count_where (λ x, fgtb x f0) series = 0 → win_rate_of series = f0.
Proof.
  unfold win_rate_of. intros ->.
  set (t := count_where _ series).
  destruct (bool_decide (0 < t)) eqn:Ht; [|done].
  apply bool_decide_eq_true in Ht.
  assert (Hne : Qc_of_Z (Z.of_nat t) ≠ 0%Qc).
  { rewrite <-Z2Qc_inj_0. intros H%Z2Qc_inj. lia. }
  unfold f100, of_Z. cbn [fdiv]. rewrite Qceqb_false by done.
  cbn [fmul]. unfold f0.
  f_equal;
    try (simpl Z.of_nat; rewrite Z2Qc_inj_0; unfold Qcdiv;
         by rewrite !Qcmult_0_l).
Qed.

Section flat_signal.
Context (data : StockData) (df : frame).
Context (HDF : DataFrame data = Ok df).
Context (Hflat : ∀ t m s, macd data !! t = Some m →
                          macd_signal data !! t = Some s → (m ≤ s)%Qc).

Lemma Target_flat : Target df = replicate (len df) 0%Z.
Proof.
  pose proof (DataFrame_wf _ _ HDF) as Hwf.
  destruct (DataFrame_Ok_inv _ _ HDF) as (_ & _ & _ & HM & HS).
  apply replicate_eq_lookup; [by apply length_Target|].
  intros t z. rewrite Target_lookup, HM, HS, !list_lookup_fmap.
  destruct (macd data !! t) as [m|] eqn:Em; [|done].
  destruct (macd_signal data !! t) as [s|] eqn:Es; [|done].
  simpl. intros [= <-]. unfold fgtb. cbn [fltb].
  destruct (Qcltb s m) eqn:E; [|done].
  apply Qcltb_lt in E. exfalso. apply (Qclt_not_le _ _ E).
  by apply (Hflat t).
Qed.

Lemma Position_flat : Position df = replicate (len df) f0.
Proof.
  pose proof (DataFrame_wf _ _ HDF) as Hwf.
  apply replicate_eq_lookup; [by apply length_Position|].
  intros [|t] p Hp; apply lookup_lt_Some in Hp as Hlt;
    rewrite length_Position in Hlt by done.
  - rewrite Position_lookup_0 in Hp by done. by injection Hp.
  - rewrite Position_lookup_S, Target_flat, lookup_replicate_2 in Hp
      by (done || lia).
    injection Hp as <-. apply of_Z_0.
Qed.

Lemma Strategy_Returns_flat t x :
  Strategy_Returns df !! t = Some x → x = f0 ∨ x = NaN.
Proof.
  pose proof (DataFrame_wf _ _ HDF) as Hwf.
  intros Hx. apply lookup_lt_Some in Hx as Hlt.
  rewrite length_Strategy_Returns in Hlt by done.
  destruct t as [|t].
  - rewrite Strategy_Returns_lookup_0 in Hx by done. right. by injection Hx.
  - rewrite Strategy_Returns_lookup, Position_Change_lookup_S in Hx.
    rewrite Position_flat, !lookup_replicate_2 in Hx by lia.
    destruct (Returns df !! S t) as [r|]; [|done].
    cbn [mbind option_bind fmap option_fmap option_map] in Hx.
    apply (inj Some) in Hx. rewrite <-Hx.
    replace (fabs (fsub f0 f0)) with f0 by float_eq.
    rewrite fmul_0_commission, fsub_0_r. apply fmul_0_l.
Qed.

Lemma net_returns_flat :
  fillna f0 (Strategy_Returns df) = replicate (len df) f0.
Proof.
  pose proof (DataFrame_wf _ _ HDF) as Hwf.
  apply replicate_eq_lookup.
  - by rewrite length_fillna, length_Strategy_Returns.
  - intros t x. rewrite fillna_lookup.
    destruct (Strategy_Returns df !! t) as [y|] eqn:Ey; [|done].
    simpl. intros [= <-].
    by destruct (Strategy_Returns_flat _ _ Ey) as [-> | ->].
Qed.

Lemma equity_flat :
  equity_of (cumulative_returns df) = replicate (len df) initial_capital.
Proof.
  unfold equity_of, cumulative_returns, cumulative, cumprod.
  rewrite net_returns_flat, fmap_replicate.
  change (cumprod_from f1) with (cumprod_from (Fin 1)).
  rewrite cumprod_from_ones, fmap_replicate.
  f_equal; float_eq.
Qed.
End flat_signal.

(** X7.  When MACD is never above its signal line the strategy stays flat:
    a returned report has no trade and no buy or sell index, every return
    is 0, the equity curve is constant at the initial capital, the
    drawdown is 0 throughout, and the final equity, total return, maximum
    drawdown and win rate are the initial capital, 0, 0 and 0. *)
Theorem never_long_report (data : StockData) (m : BacktestMetrics.t) :
  run_backtest data = Ok m →
  (∀ t a s, macd data !! t = Some a → macd_signal data !! t = Some s →
            (a ≤ s)%Qc) →
  let n := length (dates data) in
  BacktestMetrics.total_trades m = 0
  ∧ BacktestMetrics.trades m = []
  ∧ BacktestMetrics.buy_signals m = []
  ∧ BacktestMetrics.sell_signals m = []
  ∧ BacktestMetrics.returns m = replicate n f0
  ∧ BacktestMetrics.equity_curve m = replicate n initial_capital
  ∧ BacktestMetrics.drawdown_curve m = replicate n f0
  ∧ BacktestMetrics.final_equity m = initial_capital
  ∧ BacktestMetrics.total_return m = f0
  ∧ BacktestMetrics.max_drawdown m = f0
  ∧ BacktestMetrics.win_rate m = f0.
Proof.
  intros Hrun Hflat n.
  destruct (run_backtest_Ok_inv _ _ Hrun) as (_ & Hne & _).
  destruct (run_backtest_report _ _ Hrun)
    as (df & s & fe & me & d0 & dl & HDF & Hfe & _ & Hs & _ & _ & HFE & HTR
        & _ & _ & _ & HE & HD & HMD & HR & HW & _ & _ & _ & _ & _ & HT & HN
        & HB & HS).
  pose proof (DataFrame_wf _ _ HDF) as Hwf.
  pose proof (frame_len _ _ HDF) as Hlen. fold n in Hlen.
  assert (Hpos : 0 < n).
  { unfold n. destruct (dates data); [done|simpl; lia]. }
  destruct (trade_history_refines df Hwf) as (s' & Hs' & Hb & Hsl & HF).
  rewrite Hs in Hs'. injection Hs' as <-.
  assert (Hpairs : spec_ledger (Target df) = []).
  { rewrite (Target_flat data df HDF Hflat). unfold spec_ledger.
    generalize 0. generalize (len df).
    induction n0 as [|k IH]; intros i; [done|]. simpl. apply IH. }
  assert (Htr : trades s = []).
  { rewrite Hpairs in HF. by apply Forall2_nil_inv_l in HF. }
  pose proof (equity_flat data df HDF Hflat) as Heq. rewrite Hlen in Heq.
  assert (Hdd : drawdown_of (replicate n initial_capital) = replicate n f0).
  { unfold drawdown_of, initial_capital, of_Z.
    rewrite expanding_max_const, zip_with_replicate. f_equal; float_eq. }
  rewrite HN, HT, HB, HS, HR, HE, HD, HFE, HTR, HMD, HW, Hb, Hsl, Hpairs, Htr.
  rewrite Heq in Hfe |- *. rewrite Hdd.
  rewrite (net_returns_flat data df HDF Hflat), Hlen.
  split_and!; try done.
  - destruct n as [|k]; [lia|]. rewrite last_lookup in Hfe.
    rewrite lookup_replicate_2 in Hfe; [by injection Hfe|].
    rewrite length_replicate. lia.
  - assert (fe = initial_capital) as ->.
    { destruct n as [|k]; [lia|]. rewrite last_lookup in Hfe.
      rewrite lookup_replicate_2 in Hfe; [by injection Hfe|].
      rewrite length_replicate. lia. }
    float_eq.
  - destruct n as [|k]; [lia|]. apply series_min_zeros.
  - apply win_rate_of_no_win, count_where_none. intros t x Hx.
    by destruct (Strategy_Returns_flat data df HDF Hflat _ _ Hx) as [-> | ->].
Qed.

Lemma never_long_report_witness :
  ∃ m, run_backtest never_long_input = Ok m
       ∧ BacktestMetrics.equity_curve m = replicate 3 initial_capital
       ∧ BacktestMetrics.total_trades m = 0.
Proof.
  eexists.
  match goal with
  | |- run_backtest _ = Ok ?m ∧ _ =>
      assert (Hrun : run_backtest never_long_input = Ok m)
        by (vm_compute; reflexivity);
      pose proof (never_long_report never_long_input m Hrun) as H
  end.
  assert (Hflat : ∀ t a s, macd never_long_input !! t = Some a →
                    macd_signal never_long_input !! t = Some s → (a ≤ s)%Qc).
  { intros [|[|[|t]]] a s Ha Hs; try discriminate Ha;
      injection Ha as <-; injection Hs as <-; discriminate. }
  destruct (H Hflat) as (Ht & _ & _ & _ & _ & He & _).
  split; [exact Hrun|]. split; [exact He|exact Ht].
Defined.

(** ** Prices quoted in another unit *)

Lemma Qcltb_scale (k a b : Qc) :
  (0 < k)%Qc → Qcltb (k * a)%Qc (k * b)%Qc = Qcltb a b.
Proof.
  intros Hk. destruct (Qcltb a b) eqn:E.
  - apply Qcltb_lt. apply Qcltb_lt in E.
    rewrite !(Qcmult_comm k). by apply Qcmult_lt_compat_r.
  - destruct (Qcltb (k * a) (k * b)) eqn:E'; [|done].
    apply Qcltb_lt in E'.
    assert (Hle : (b ≤ a)%Qc).
    { apply Qcnot_lt_le. intros H%Qcltb_lt. congruence. }
    apply (Qcmult_le_compat_r _ _ k) in Hle; [|by apply Qclt_le_weak].
    rewrite !(Qcmult_comm _ k) in Hle. by apply Qcle_not_lt in Hle.
Qed.

Lemma Qc_scale_eq_0 (k a : Qc) : (0 < k)%Qc → (k * a)%Qc = 0%Qc ↔ a = 0%Qc.
Proof.
  intros Hk. split.
  - intros [->|H]%Qcmult_integral; [|done]. by apply Qclt_not_eq in Hk.
  - intros ->. apply Qcmult_0_r.
Qed.

Lemma Qccompare_scale_0 (k a : Qc) :
  (0 < k)%Qc → (k * a ?= 0)%Qc = (a ?= 0)%Qc.
Proof.
  intros Hk. destruct (a ?= 0)%Qc eqn:E.
  - apply Qceq_alt in E. subst a. rewrite Qcmult_0_r. by apply Qceq_alt.
  - apply Qclt_alt in E. apply Qclt_alt.
    rewrite <-(Qcmult_0_r k), !(Qcmult_comm k).
    by apply Qcmult_lt_compat_r.
  - apply Qcgt_alt in E. apply Qcgt_alt.
    rewrite <-(Qcmult_0_r k), !(Qcmult_comm k).
    by apply Qcmult_lt_compat_r.
Qed.

Lemma fdiv_scale (k a b : Qc) :
  (0 < k)%Qc →
  fdiv (Fin (k * a)%Qc) (Fin (k * b)%Qc) = fdiv (Fin a) (Fin b).
Proof.
  intros Hk. cbn [fdiv].
  assert (Hk0 : k ≠ 0%Qc) by (intros ->; by apply (Qclt_not_eq 0 0)).
  destruct (decide (b = 0%Qc)) as [->|Hb].
  - rewrite Qcmult_0_r. replace (Qceqb 0 0) with true by done.
    unfold inf_signed. by rewrite Qccompare_scale_0.
  - rewrite !Qceqb_false; [|done|].
    + f_equal. by field.
    + by rewrite Qc_scale_eq_0.
Qed.

Section rescaled.
Context (k : Qc) (Hk : (0 < k)%Qc).
Context (data : StockData) (df df' : frame).
Context (HDF : DataFrame data = Ok df).
Context (HDF' : DataFrame (rescale k data) = Ok df').

Lemma rescale_len : len df' = len df.
Proof. by rewrite (frame_len _ _ HDF), (frame_len _ _ HDF'). Qed.

Lemma rescale_index : index df' = index df.
Proof.
  destruct (DataFrame_Ok_inv _ _ HDF) as (_ & -> & _).
  by destruct (DataFrame_Ok_inv _ _ HDF') as (_ & -> & _).
Qed.

Lemma rescale_Close t :
  Close df' !! t = fmul (Fin k) <$> Close df !! t.
Proof.
  destruct (DataFrame_Ok_inv _ _ HDF) as (_ & _ & -> & _).
  destruct (DataFrame_Ok_inv _ _ HDF') as (_ & _ & -> & _).
  simpl. rewrite !list_lookup_fmap. by destruct (closes data !! t).
Qed.

Lemma rescale_Target : Target df' = Target df.
Proof.
  destruct (DataFrame_Ok_inv _ _ HDF) as (_ & _ & _ & HM & HS).
  destruct (DataFrame_Ok_inv _ _ HDF') as (_ & _ & _ & HM' & HS').
  apply list_eq. intros t.
  rewrite !Target_lookup, HM, HS, HM', HS'. simpl.
  rewrite !list_lookup_fmap.
  destruct (macd data !! t) as [m|]; [|done].
  destruct (macd_signal data !! t) as [s|]; [|done].
  simpl. unfold fgtb. cbn [fltb]. by rewrite Qcltb_scale.
Qed.

Lemma rescale_Returns : Returns df' = Returns df.
Proof.
  pose proof (DataFrame_wf _ _ HDF) as Hwf.
  pose proof (DataFrame_wf _ _ HDF') as Hwf'.
  destruct (DataFrame_Ok_inv _ _ HDF) as (_ & _ & HC & _).
  apply list_eq. intros [|t].
  - destruct (decide (0 < len df)) as [Hpos|Hz].
    + rewrite !Returns_lookup_0; [done..|by rewrite rescale_len].
    + rewrite !lookup_ge_None_2; [done|..];
        rewrite length_Returns by done; [|rewrite rescale_len]; lia.
  - rewrite !Returns_lookup_S, !rescale_Close, HC, !list_lookup_fmap.
    destruct (closes data !! S t) as [c|]; [|done].
    destruct (closes data !! t) as [c'|]; [|done].
    cbn [mbind option_bind fmap option_fmap option_map fmul].
    by rewrite fdiv_scale.
Qed.

Lemma rescale_Position : Position df' = Position df.
Proof. unfold Position. by rewrite rescale_Target. Qed.

Lemma rescale_Strategy_Returns : Strategy_Returns df' = Strategy_Returns df.
Proof.
  unfold Strategy_Returns, Gross_Strategy_Returns, Commission_Cost,
    Position_Change.
  by rewrite rescale_Position, rescale_Returns.
Qed.

Lemma rescale_equity :
  equity_of (cumulative_returns df') = equity_of (cumulative_returns df).
Proof. unfold cumulative_returns. by rewrite rescale_Strategy_Returns. Qed.

Lemma rescale_market_equity :
  equity_of (market_cumulative df') = equity_of (market_cumulative df).
Proof.
  unfold market_cumulative, market_returns. by rewrite rescale_Returns.
Qed.

Lemma rescale_annualizable :
  annualizable (rescale k data) = annualizable data.
Proof.
  unfold annualizable.
  by rewrite HDF, HDF', rescale_equity, rescale_market_equity, rescale_len.
Qed.

Lemma rescale_is_trade p tr tr' :
  is_trade_of data p tr → is_trade_of (rescale k data) p tr' →
  scaled_trade k tr tr'.
Proof.
  destruct p as [e x].
  intros (pe & px & de & dx & He & Hx & Hde & Hdx & ->).
  intros (pe' & px' & de' & dx' & He' & Hx' & Hde' & Hdx' & ->).
  simpl in He', Hx', Hde', Hdx'.
  rewrite list_lookup_fmap, He in He'. rewrite list_lookup_fmap, Hx in Hx'.
  rewrite Hde in Hde'. rewrite Hdx in Hdx'.
  simpl in He', Hx'.
  injection He' as <-. injection Hx' as <-.
  injection Hde' as <-. injection Hdx' as <-.
  unfold scaled_trade. cbn [TradeRecord.entry_date TradeRecord.exit_date
    TradeRecord.entry_price TradeRecord.exit_price TradeRecord.profit_loss
    TradeRecord.profit_loss_pct TradeRecord.duration_days
    TradeRecord.trade_type].
  assert (HPL : fsub (fsub (Fin (k * px)%Qc) (Fin (k * pe)%Qc))
                  (fmul (fmul (Fin (k * pe)%Qc) commission) (of_Z 2))
                = Fin (k * (px + - pe + - (pe * Q2Qc (2 # 1000)
                                           * Qc_of_Z 2)))%Qc).
  { unfold commission, of_Z. cbn [fsub fadd fneg fmul]. f_equal. ring. }
  split_and!; try done.
  rewrite HPL. unfold commission, of_Z. cbn [fsub fadd fneg fmul].
  by rewrite fdiv_scale.
Qed.
End rescaled.

Lemma Forall2_common_left {A B C} (R1 : A → B → Prop) (R2 : A → C → Prop)
    (R : B → C → Prop) (l : list A) (l1 : list B) (l2 : list C) :
  (∀ p x y, R1 p x → R2 p y → R x y) →
  Forall2 R1 l l1 → Forall2 R2 l l2 → Forall2 R l1 l2.
Proof.
  intros HR H1. revert l2.
  induction H1 as [|p x l l1 Hx _ IH]; intros l2 H2.
  - apply Forall2_nil_inv_l in H2 as ->. constructor.
  - apply Forall2_cons_inv_l in H2 as (y & l2' & Hy & H2 & ->).
    constructor; [by eapply HR|by apply IH].
Qed.

Lemma rescale_aligned (k : Qc) (data : StockData) :
  aligned data → aligned (rescale k data).
Proof. unfold aligned. simpl. by rewrite !length_fmap. Qed.

(** X8.  Quoting the same history in another unit changes no relative
    figure: when closes, MACD and signal line are all multiplied by one
    positive factor, the engine returns a report again, with the same
    returns, equity, benchmark and drawdown curves, the same final equity,
    total returns, maximum drawdowns and win rate, and the same entry and
    exit periods; each trade keeps its dates, duration and percentage
    profit, and its prices and profit are multiplied by the factor.  (In
    the exact arithmetic of the model.) *)
Theorem price_unit_invariance (k : Qc) (data : StockData)
    (m : BacktestMetrics.t) :
  (0 < k)%Qc → run_backtest data = Ok m →
  ∃ m', run_backtest (rescale k data) = Ok m'
    ∧ BacktestMetrics.returns m' = BacktestMetrics.returns m
    ∧ BacktestMetrics.equity_curve m' = BacktestMetrics.equity_curve m
    ∧ BacktestMetrics.market_equity m' = BacktestMetrics.market_equity m
    ∧ BacktestMetrics.drawdown_curve m' = BacktestMetrics.drawdown_curve m
    ∧ BacktestMetrics.final_equity m' = BacktestMetrics.final_equity m
    ∧ BacktestMetrics.total_return m' = BacktestMetrics.total_return m
    ∧ BacktestMetrics.market_total_return m'
      = BacktestMetrics.market_total_return m
    ∧ BacktestMetrics.max_drawdown m' = BacktestMetrics.max_drawdown m
    ∧ BacktestMetrics.market_max_drawdown m'
      = BacktestMetrics.market_max_drawdown m
    ∧ BacktestMetrics.win_rate m' = BacktestMetrics.win_rate m
    ∧ BacktestMetrics.total_trades m' = BacktestMetrics.total_trades m
    ∧ BacktestMetrics.buy_signals m' = BacktestMetrics.buy_signals m
    ∧ BacktestMetrics.sell_signals m' = BacktestMetrics.sell_signals m
    ∧ Forall2 (scaled_trade k)
        (BacktestMetrics.trades m) (BacktestMetrics.trades m').
Proof.
  intros Hk Hrun.
  destruct (run_backtest_Ok_inv _ _ Hrun) as (Hal & Hne & Hann).
  pose proof (rescale_aligned k data Hal) as Hal'.
  destruct (run_backtest_report _ _ Hrun)
    as (df & s & fe & me & d0 & dl & HDF & Hfe & Hme & Hs & _ & _
        & Hfin & Htot & Hmtot & Hmdd & Hmeq & Heq & Hdd & Hmax & Hret
        & Hwin & _ & _ & _ & _ & _ & Htr & Hn & Hbuy & Hsell).
  destruct (DataFrame (rescale k data)) as [df'|] eqn:HDF';
    [|by rewrite (DataFrame_aligned _ Hal') in HDF'].
  assert (Hann' : annualizable (rescale k data) = true).
  { by rewrite (rescale_annualizable k Hk data df df' HDF HDF'). }
  destruct (run_backtest_Ok (rescale k data) Hal' Hne Hann')
    as (? & ? & m' & _ & _ & Hrun' & _).
  exists m'. split; [done|].
  destruct (run_backtest_report _ _ Hrun')
    as (df0 & s' & fe' & me' & d0' & dl' & HDF0 & Hfe' & Hme' & Hs' & _ & _
        & Hfin' & Htot' & Hmtot' & Hmdd' & Hmeq' & Heq' & Hdd' & Hmax'
        & Hret' & Hwin' & _ & _ & _ & _ & _ & Htr' & Hn' & Hbuy' & Hsell').
  rewrite HDF' in HDF0. injection HDF0 as <-.
  pose proof (rescale_equity k Hk data df df' HDF HDF') as HE.
  pose proof (rescale_market_equity k Hk data df df' HDF HDF') as HM.
  pose proof (rescale_Strategy_Returns k Hk data df df' HDF HDF') as HS.
  pose proof (rescale_Target k Hk data df df' HDF HDF') as HT.
  rewrite HE, Hfe in Hfe'. injection Hfe' as <-.
  rewrite HM, Hme in Hme'. injection Hme' as <-.
  destruct (trade_history_refines df (DataFrame_wf _ _ HDF))
    as (s0 & Hs0 & Hb0 & Hx0 & HF0).
  rewrite Hs in Hs0. injection Hs0 as <-.
  destruct (trade_history_refines df' (DataFrame_wf _ _ HDF'))
    as (s0 & Hs0 & Hb0' & Hx0' & HF0').
  rewrite Hs' in Hs0. injection Hs0 as <-.
  rewrite HT in Hb0', Hx0', HF0'.
  assert (HF : Forall2 (scaled_trade k) (trades s) (trades s')).
  { eapply Forall2_common_left; [|exact HF0|exact HF0'].
    intros p tr tr' Hx Hy.
    eapply (rescale_is_trade k Hk data p).
    - by eapply closes_as_is_trade.
    - by eapply closes_as_is_trade. }
  rewrite Hret', Heq', Hmeq', Hdd', Hfin', Htot', Hmtot', Hmax', Hmdd',
    Hwin', Hn', Hbuy', Hsell', Htr'.
  rewrite Hret, Heq, Hmeq, Hdd, Hfin, Htot, Hmtot, Hmax, Hmdd, Hwin, Hn,
    Hbuy, Hsell, Htr.
  rewrite HE, HM, HS, Hb0, Hb0', Hx0, Hx0'.
  rewrite (Forall2_length _ _ _ HF).
  split_and!; done.
Qed.

Lemma price_unit_invariance_witness :
  ∃ m m', run_backtest scenario = Ok m
    ∧ run_backtest (rescale (Qc_of_Z 2) scenario) = Ok m'
    ∧ BacktestMetrics.equity_curve m' = BacktestMetrics.equity_curve m
    ∧ Forall2 (scaled_trade (Qc_of_Z 2))
        (BacktestMetrics.trades m) (BacktestMetrics.trades m').
Proof.
  eexists.
  match goal with
  | |- ∃ m', run_backtest _ = Ok ?m ∧ _ =>
      assert (Hrun : run_backtest scenario = Ok m)
        by (vm_compute; reflexivity);
      assert (Hk : (0 < Qc_of_Z 2)%Qc) by reflexivity;
      destruct (price_unit_invariance (Qc_of_Z 2) scenario m Hk Hrun)
        as (m' & Hrun' & _ & He & H)
  end.
  exists m'. split_and!; [exact Hrun|exact Hrun'|exact He|].
  apply H.
Defined.

(** ** A shorter history *)

Lemma shift1_take (n : nat) (l : list float64) :
  shift1 (take n l) = take n (shift1 l).
Proof.
  unfold shift1. rewrite length_take, take_take.
  destruct (n `min` length l) as [|k] eqn:E; [done|].
  replace (S k `min` length l) with (S k) by lia.
  cbn [take]. f_equal. rewrite take_take. f_equal. lia.
Qed.

Lemma cumprod_from_take (n : nat) : ∀ (l : list float64) (acc : float64),
  cumprod_from acc (take n l) = take n (cumprod_from acc l).
Proof.
  induction n as [|n IH]; intros [|x l] acc; try done.
  cbn [take cumprod_from]. destruct (is_nan x); cbn [take]; by rewrite IH.
Qed.

Lemma expanding_max_from_take (n : nat) :
  ∀ (l : list float64) (acc : float64),
    expanding_max_from acc (take n l) = take n (expanding_max_from acc l).
Proof.
  induction n as [|n IH]; intros [|x l] acc; try done.
  cbn [take expanding_max_from]. by rewrite IH.
Qed.

Lemma drawdown_of_take (n : nat) (equity : list float64) :
  drawdown_of (take n equity) = take n (drawdown_of equity).
Proof.
  unfold drawdown_of, expanding_max.
  by rewrite expanding_max_from_take, zip_with_take.
Qed.

Lemma ledger_scan_take (zs : list Z) : ∀ n open i,
  (ledger_scan open i (take n zs)).*1 `prefix_of` (ledger_scan open i zs).*1.
Proof.
  induction zs as [|z zs IH]; intros n open i.
  - by rewrite take_nil.
  - destruct n as [|n].
    + cbn [take]. destruct open as [e|]; [|apply prefix_nil].
      destruct (ledger_scan_open_head e (z :: zs) i) as (x & l & ->).
      simpl. apply prefix_cons, prefix_nil.
    + cbn [take]. destruct open as [e|]; simpl.
      * destruct (bool_decide (z = 0%Z)); [|apply IH].
        simpl. apply prefix_cons, IH.
      * destruct (bool_decide (z = 1%Z)); apply IH.
Qed.

Section shorter_history.
Context (n : nat) (data : StockData) (df df' : frame).
Context (HDF : DataFrame data = Ok df).
Context (HDF' : DataFrame (history_until n data) = Ok df').

Lemma until_Target : Target df' = take n (Target df).
Proof.
  destruct (DataFrame_Ok_inv _ _ HDF) as (_ & _ & _ & HM & HS).
  destruct (DataFrame_Ok_inv _ _ HDF') as (_ & _ & _ & HM' & HS').
  unfold Target. rewrite HM, HS, HM', HS'. simpl.
  by rewrite !fmap_take, zip_with_take.
Qed.

Lemma until_Returns : Returns df' = take n (Returns df).
Proof.
  destruct (DataFrame_Ok_inv _ _ HDF) as (_ & _ & HC & _).
  destruct (DataFrame_Ok_inv _ _ HDF') as (_ & _ & HC' & _).
  unfold Returns, pct_change. rewrite HC, HC'. simpl.
  by rewrite !fmap_take, shift1_take, zip_with_take.
Qed.

Lemma until_Position : Position df' = take n (Position df).
Proof.
  unfold Position, fillna.
  by rewrite until_Target, !fmap_take, shift1_take, fmap_take.
Qed.

Lemma until_Strategy_Returns :
  Strategy_Returns df' = take n (Strategy_Returns df).
Proof.
  unfold Strategy_Returns, Gross_Strategy_Returns, Commission_Cost,
    Position_Change, diff.
  rewrite until_Position, until_Returns.
  by rewrite !zip_with_take, <-!fmap_take, zip_with_take, <-shift1_take.
Qed.

Lemma until_equity :
  equity_of (cumulative_returns df')
  = take n (equity_of (cumulative_returns df)).
Proof.
  unfold equity_of, cumulative_returns, cumulative, cumprod, fillna.
  by rewrite until_Strategy_Returns, !fmap_take, cumprod_from_take,
    fmap_take.
Qed.

Lemma until_market_equity :
  equity_of (market_cumulative df') = take n (equity_of (market_cumulative df)).
Proof.
  unfold equity_of, market_cumulative, market_returns, cumprod, fillna.
  by rewrite until_Returns, !fmap_take, cumprod_from_take, fmap_take.
Qed.
End shorter_history.

(** X9.  No repainting: when the engine returns a report both on a history
    and on its first [n] periods, the report on the shorter history holds
    exactly the first [n] points of the returns, of the equity curve, of
    the benchmark equity and of the drawdown curve of the longer one, and
    its buy indices are the first ones of the longer one.  Later periods
    never change what the report says about earlier ones. *)
Theorem shorter_history_is_prefix (n : nat) (data : StockData)
    (m m' : BacktestMetrics.t) :
  run_backtest data = Ok m →
  run_backtest (history_until n data) = Ok m' →
  BacktestMetrics.returns m' = take n (BacktestMetrics.returns m)
  ∧ BacktestMetrics.equity_curve m' = take n (BacktestMetrics.equity_curve m)
  ∧ BacktestMetrics.market_equity m'
    = take n (BacktestMetrics.market_equity m)
  ∧ BacktestMetrics.drawdown_curve m'
    = take n (BacktestMetrics.drawdown_curve m)
  ∧ BacktestMetrics.buy_signals m' `prefix_of` BacktestMetrics.buy_signals m
  ∧ BacktestMetrics.data_points m' = n `min` BacktestMetrics.data_points m.
Proof.
  intros Hrun Hrun'.
  destruct (run_backtest_report _ _ Hrun)
    as (df & s & fe & me & d0 & dl & HDF & _ & _ & Hs & _ & _
        & _ & _ & _ & _ & Hmeq & Heq & Hdd & _ & Hret
        & _ & _ & _ & _ & Hdp & _ & _ & _ & Hbuy & _).
  destruct (run_backtest_report _ _ Hrun')
    as (df' & s' & fe' & me' & d0' & dl' & HDF' & _ & _ & Hs' & _ & _
        & _ & _ & _ & _ & Hmeq' & Heq' & Hdd' & _ & Hret'
        & _ & _ & _ & _ & Hdp' & _ & _ & _ & Hbuy' & _).
  destruct (trade_history_refines df (DataFrame_wf _ _ HDF))
    as (s0 & Hs0 & Hb0 & _).
  rewrite Hs in Hs0. injection Hs0 as <-.
  destruct (trade_history_refines df' (DataFrame_wf _ _ HDF'))
    as (s0 & Hs0 & Hb0' & _).
  rewrite Hs' in Hs0. injection Hs0 as <-.
  rewrite Hret', Heq', Hmeq', Hdd', Hbuy', Hdp', Hret, Heq, Hmeq, Hdd, Hbuy,
    Hdp, Hb0, Hb0'.
  rewrite (until_equity n data df df' HDF HDF').
  rewrite (until_market_equity n data df df' HDF HDF').
  rewrite (until_Strategy_Returns n data df df' HDF HDF').
  rewrite (until_Target n data df df' HDF HDF').
  split_and!.
  - unfold fillna. by rewrite fmap_take.
  - done.
  - done.
  - by rewrite drawdown_of_take.
  - apply ledger_scan_take.
  - rewrite (frame_len _ _ HDF), (frame_len _ _ HDF'). simpl.
    by rewrite length_take.
Qed.

Lemma shorter_history_is_prefix_witness :
  ∃ m m', run_backtest scenario = Ok m
    ∧ run_backtest (history_until 3 scenario) = Ok m'
    ∧ BacktestMetrics.equity_curve m'
      = take 3 (BacktestMetrics.equity_curve m)
    ∧ BacktestMetrics.drawdown_curve m'
      = take 3 (BacktestMetrics.drawdown_curve m).
Proof.
  do 2 eexists.
  match goal with
  | |- run_backtest _ = Ok ?m ∧ run_backtest _ = Ok ?m' ∧ _ =>
      assert (Hrun : run_backtest scenario = Ok m)
        by (vm_compute; reflexivity);
      assert (Hrun' : run_backtest (history_until 3 scenario) = Ok m')
        by (vm_compute; reflexivity);
      destruct (shorter_history_is_prefix 3 scenario m m' Hrun Hrun')
        as (_ & He & _ & Hd & _)
  end.
  split_and!; [exact Hrun|exact Hrun'|exact He|exact Hd].
Defined.

(** ** Inside the price contract *)

Lemma pct_lower_bound (a b : Qc) :
  (0 ≤ a)%Qc → (0 < b)%Qc →
  (Qc_of_Z (-100) ≤ (a / b + - 1) * Qc_of_Z 100)%Qc.
Proof.
  intros Ha Hb.
  assert (Hq : (0 ≤ a / b)%Qc).
  { apply Qcle_div; [done|]. by rewrite Qcmult_0_l. }
  assert (H1 : (- 1 ≤ a / b + - 1)%Qc).
  { rewrite <-(Qcplus_0_l (- 1)) at 1. by apply Qcplus_le_compat. }
  apply (Qcmult_le_compat_r _ _ (Qc_of_Z 100)) in H1; [|done].
  replace (- 1 * Qc_of_Z 100)%Qc with (Qc_of_Z (-100)) in H1; [done|].
  by apply Qc_is_canon.
Qed.

Lemma contract_closes_nonzero (data : StockData) :
  price_contract data → Forall (λ c, c ≠ 0%Qc) (closes data).
Proof.
  intros [Hpos _]. eapply Forall_impl; [exact Hpos|].
  intros c Hc ->. by apply (Qclt_not_eq 0 0).
Qed.


Lemma scenario_price_contract : price_contract scenario.
Proof.
  split.
  - repeat constructor.
  - intros t c c' Hc' Hc.
    do 4 (destruct t as [|t];
          [injection Hc' as <-; injection Hc as <-; discriminate|]).
    destruct t; discriminate Hc.
Qed.


(** ** An entry on the last period *)

Lemma ledger_scan_snoc_entry (zs : list Z) : ∀ open i,
  last zs = Some 0%Z ∨ (zs = [] ∧ open = None) →
  ledger_scan open i (zs ++ [1%Z])
  = ledger_scan open i zs ++ [(i + length zs, i + length zs)].
Proof.
  induction zs as [|z zs IH]; intros open i Hlast.
  - destruct Hlast as [|[_ ->]]; [done|]. simpl.
    by rewrite Nat.sub_0_r, Nat.add_0_r.
  - assert (Hrest : ∀ open', z = 0%Z ∨ zs ≠ [] →
              ledger_scan open' (S i) (zs ++ [1%Z])
              = ledger_scan open' (S i) zs
                ++ [(i + length (z :: zs), i + length (z :: zs))] ∨
              (zs = [] ∧ open' ≠ None)).
    { intros open' Hz. destruct zs as [|z' zs'].
      - destruct open' as [e|]; [by right|]. left.
        rewrite IH by (by right). simpl. do 3 f_equal; lia.
      - left. rewrite IH.
        + simpl. do 3 f_equal; lia.
        + left. destruct Hlast as [Hl|[? _]]; [|done].
          by rewrite last_cons_cons in Hl. }
    assert (Hz : zs = [] → z = 0%Z).
    { intros ->. destruct Hlast as [Hl|[? _]]; [|done]. by injection Hl. }
    destruct open as [e|]; simpl.
    + destruct (bool_decide (z = 0%Z)) eqn:E.
      * apply bool_decide_eq_true in E. simpl. f_equal.
        destruct (Hrest None) as [->|[_ ?]]; [by left|done..].
      * apply bool_decide_eq_false in E.
        destruct (Hrest (Some e)) as [->|[-> _]];
          [|done|by destruct E; apply Hz].
        right. intros ->. by apply E, Hz.
    + destruct (bool_decide (z = 1%Z)) eqn:E.
      * apply bool_decide_eq_true in E.
        destruct (Hrest (Some i)) as [->|[-> _]]; [|done|].
        -- right. intros ->. by specialize (Hz eq_refl); subst.
        -- specialize (Hz eq_refl). by subst.
      * destruct (Hrest None) as [->|[_ ?]]; [|done..].
        destruct zs; [left; by apply Hz|by right].
Qed.

Lemma Qcltb_false_le (x y : Qc) : (x ≤ y)%Qc → Qcltb y x = false.
Proof.
  intros H. destruct (Qcltb y x) eqn:E; [|done].
  apply Qcltb_lt in E. by apply Qcle_not_lt in H.
Qed.

(** X11.  A position entered on the last period is closed at once: when
    MACD is above its signal line in the last period and was not in the
    period before (or there is none), the last trade of the report is
    entered and closed on the last date at the last close, lasts 0 days and
    loses the two commissions, [2 * 0.002 * Close]; whenever that close is
    not zero this is -0.4 % .  The last buy and sell indices are both the
    last period. *)
Theorem entry_on_last_period (data : StockData) (m : BacktestMetrics.t)
    (a b c : Qc) (d : string) :
  let n := length (dates data) in
  run_backtest data = Ok m →
  macd data !! (n - 1) = Some a → macd_signal data !! (n - 1) = Some b →
  (b < a)%Qc →
  (∀ t a' b', S t = n - 1 → macd data !! t = Some a' →
     macd_signal data !! t = Some b' → (a' ≤ b')%Qc) →
  closes data !! (n - 1) = Some c → dates data !! (n - 1) = Some d →
  ∃ tr, last (BacktestMetrics.trades m) = Some tr
    ∧ last (BacktestMetrics.buy_signals m) = Some (n - 1)
    ∧ last (BacktestMetrics.sell_signals m) = Some (n - 1)
    ∧ TradeRecord.entry_date tr = d ∧ TradeRecord.exit_date tr = d
    ∧ TradeRecord.entry_price tr = Fin c ∧ TradeRecord.exit_price tr = Fin c
    ∧ TradeRecord.duration_days tr = 0%Z
    ∧ TradeRecord.profit_loss tr
      = fneg (fmul (fmul (Fin c) commission) (of_Z 2))
    ∧ (c ≠ 0%Qc → TradeRecord.profit_loss_pct tr = Fin (Q2Qc (-4 # 10))).
Proof.
  intros n Hrun Ha Hb Hab Hprev Hc Hd.
  destruct (run_backtest_report _ _ Hrun)
    as (df & s & fe & me & d0 & dl & HDF & _ & _ & Hs & _ & _
        & _ & _ & _ & _ & _ & _ & _ & _ & _
        & _ & _ & _ & _ & _ & _ & Htr & _ & Hbuy & Hsell).
  pose proof (DataFrame_wf _ _ HDF) as Hwf.
  pose proof (frame_len _ _ HDF) as Hlen. fold n in Hlen.
  destruct (DataFrame_Ok_inv _ _ HDF) as (_ & _ & _ & HM & HS).
  destruct (trade_history_refines df Hwf) as (s0 & Hs0 & Hb0 & Hx0 & HF).
  rewrite Hs in Hs0. injection Hs0 as <-.
  pose proof (length_Target df Hwf) as HlenT. rewrite Hlen in HlenT.
  assert (Hn : 0 < n) by (apply lookup_lt_Some in Hd; lia).
  assert (Hlast : Target df !! (n - 1) = Some 1%Z).
  { rewrite Target_lookup, HM, HS, !list_lookup_fmap, Ha, Hb. simpl.
    unfold fgtb. cbn [fltb]. by rewrite (proj2 (Qcltb_lt b a) Hab). }
  assert (HT : Target df = take (n - 1) (Target df) ++ [1%Z]).
  { rewrite <-(take_drop (n - 1) (Target df)) at 1. f_equal.
    rewrite (drop_S _ _ _ Hlast), drop_ge by lia. done. }
  assert (Hzs : last (take (n - 1) (Target df)) = Some 0%Z
                ∨ (take (n - 1) (Target df) = [] ∧ @None nat = None)).
  { destruct (n - 1) as [|t] eqn:En; [by right|]. left.
    rewrite last_lookup, length_take, lookup_take_lt by lia.
    replace (Init.Nat.pred (S t `min` length (Target df))) with t by lia.
    rewrite Target_lookup, HM, HS, !list_lookup_fmap.
    destruct (lookup_lt_is_Some_2 (macd data) t) as [a' Ha'].
    { apply lookup_lt_Some in Ha. lia. }
    destruct (lookup_lt_is_Some_2 (macd_signal data) t) as [b' Hb'].
    { apply lookup_lt_Some in Hb. lia. }
    rewrite Ha', Hb'. simpl. unfold fgtb. cbn [fltb].
    by rewrite (Qcltb_false_le _ _ (Hprev t a' b' eq_refl Ha' Hb')). }
  assert (Hpairs : ∃ l, spec_ledger (Target df) = l ++ [(n - 1, n - 1)]).
  { rewrite HT. unfold spec_ledger.
    rewrite (ledger_scan_snoc_entry _ None 0 Hzs), length_take. simpl.
    replace ((n - 1) `min` length (Target df)) with (n - 1) by lia.
    by eexists. }
  destruct Hpairs as [l Hl]. rewrite Hl in Hb0, Hx0, HF.
  apply Forall2_app_inv_l in HF as (trs & trl & _ & Htrl & Hts).
  apply Forall2_cons_inv_l in Htrl
    as (tr & ? & Hclose & ->%Forall2_nil_inv_l & ->).
  apply (closes_as_is_trade data) in Hclose; [|done].
  destruct Hclose as (pe & px & de & dx & He & Hx & Hde & Hdx & Htrec).
  rewrite Hc in He, Hx. rewrite Hd in Hde, Hdx.
  injection He as <-. injection Hx as <-.
  injection Hde as <-. injection Hdx as <-.
  exists tr. rewrite Htr, Hbuy, Hsell, Hts, Hb0, Hx0, !fmap_app, !last_snoc.
  rewrite Htrec. cbn [TradeRecord.entry_date TradeRecord.exit_date
    TradeRecord.entry_price TradeRecord.exit_price TradeRecord.profit_loss
    TradeRecord.profit_loss_pct TradeRecord.duration_days].
  assert (HPL : fsub (fsub (Fin c) (Fin c))
                  (fmul (fmul (Fin c) commission) (of_Z 2))
                = Fin (- (c * Q2Qc (2 # 1000) * Qc_of_Z 2))%Qc).
  { unfold commission, of_Z. cbn [fsub fadd fneg fmul]. f_equal. ring. }
  split_and!; try done.
  - cbn [fmap list_fmap fst]. by rewrite last_snoc.
  - cbn [fmap list_fmap snd]. by rewrite last_snoc.
  - lia.
  - intros Hc0. rewrite HPL. unfold f100, of_Z. cbn [fdiv fmul].
    rewrite Qceqb_false by done. cbn [fmul]. f_equal.
    assert (H4 : (- (Q2Qc (2 # 1000) * Qc_of_Z 2) * Qc_of_Z 100)%Qc
                 = Q2Qc (-4 # 10)) by (by apply Qc_is_canon).
    rewrite <-H4. by field.
Qed.

Lemma entry_on_last_period_witness :
  ∃ m tr, run_backtest late_entry_input = Ok m
    ∧ last (BacktestMetrics.trades m) = Some tr
    ∧ TradeRecord.duration_days tr = 0%Z
    ∧ TradeRecord.profit_loss_pct tr = Fin (Q2Qc (-4 # 10)).
Proof.
  eexists.
  match goal with
  | |- ∃ tr, run_backtest _ = Ok ?m ∧ _ =>
      assert (Hrun : run_backtest late_entry_input = Ok m)
        by (vm_compute; reflexivity);
      pose proof (entry_on_last_period late_entry_input m
                    (qz 1) (qz 0) (qz 120) "2024-01-03" Hrun
                    eq_refl eq_refl eq_refl) as H
  end.
  destruct H as (tr & Htr & _ & _ & _ & _ & _ & _ & Hdur & _ & Hpct);
    [|reflexivity|reflexivity|].
  - intros [|[|t]] a' b' Ht Ha' Hb'; try discriminate Ht.
    injection Ha' as <-. injection Hb' as <-. discriminate.
  - exists tr. split_and!; [exact Hrun|exact Htr|exact Hdur|].
    apply Hpct. discriminate.
Defined.
